(** * ResearchRover: source selection, embedding submission and the chat controller

    A shallow embedding of the two client components that drive
    document-mode chat:

    - [DocumentPickerModal] (the picker: selection map, toggles,
      [handleConfirm]);
    - [ChatPage] (the conversation controller: mode, context mode, bound
      conversation, transcript, [handleSend]).

    React state is a record; a handler is a function on that record.  A
    handler that awaits network calls receives the reply of every call it
    may reach as an argument ([None] is a rejected promise) and logs the
    calls it issues, in order.  A JavaScript [Map] is an insertion-ordered
    association list; strings are [string]; string-typed enums of the
    TypeScript declarations are inductive types. *)

From Stdlib Require Import Ascii String NArith ZArith Floats.PrimFloat.
From stdpp Require Import gmap strings list.

Local Open Scope string_scope.
Local Open Scope list_scope.

(** ** JavaScript strings *)

Module JsString.

(** [s1 === s2] on strings. *)
Definition eqb (s1 s2 : string) : bool := String.eqb s1 s2.

(** Truthiness of a string: every string but the empty one. *)
Definition truthy (s : string) : bool := negb (String.eqb s "").

(** Truthiness of [string | null]. *)
Definition truthy_opt (o : option string) : bool :=
  match o with
  | Some s => truthy s
  | None => false
  end.

(** [a || b] where [a : string | null | undefined] and [b : string]. *)
Definition or_else (a : option string) (b : string) : string :=
  if truthy_opt a then default b a else b.

(** White space and line terminators of the ASCII range
    (TAB, LF, VT, FF, CR, SP); strings are read as ASCII text. *)
Definition isWhiteSpace (a : ascii) : bool :=
  let n := N_of_ascii a in
  ((9 <=? n)%N && (n <=? 13)%N) || (n =? 32)%N.

Fixpoint trimStart (s : string) : string :=
  match s with
  | EmptyString => EmptyString
  | String a r => if isWhiteSpace a then trimStart r else s
  end.

Fixpoint trimEnd (s : string) : string :=
  match s with
  | EmptyString => EmptyString
  | String a r =>
      let r' := trimEnd r in
      if isWhiteSpace a && String.eqb r' "" then EmptyString else String a r'
  end.

(** [s.trim()]. *)
Definition trim (s : string) : string := trimEnd (trimStart s).

End JsString.

(** ** JavaScript [Map<string, V>]: insertion-ordered, one entry per key *)

Module JsMap.
Section ops.
Context {V : Type}.

Definition t := list (string * V).

Definition empty : t := [].

(** [m.get(k)] ([None] is [undefined]). *)
Fixpoint get (k : string) (m : t) : option V :=
  match m with
  | [] => None
  | (k', v) :: r => if String.eqb k k' then Some v else get k r
  end.

(** [m.has(k)]. *)
Definition has (k : string) (m : t) : bool :=
  match get k m with
  | Some _ => true
  | None => false
  end.

(** [m.delete(k)]: the remaining entries keep their order. *)
Fixpoint delete (k : string) (m : t) : t :=
  match m with
  | [] => []
  | (k', v) :: r =>
      if String.eqb k k' then delete k r else (k', v) :: delete k r
  end.

(** [m.set(k, v)]: a present key keeps its position and takes the new
    value, an absent key is appended. *)
Fixpoint set (k : string) (v : V) (m : t) : t :=
  match m with
  | [] => [(k, v)]
  | (k', v') :: r =>
      if String.eqb k k' then (k, v) :: r else (k', v') :: set k v r
  end.

(** [Array.from(m.values())]. *)
Definition values (m : t) : list V := map snd m.

(** [Array.from(m.keys())]. *)
Definition keys (m : t) : list string := map fst m.

(** [m.size]. *)
Definition size (m : t) : nat := length m.

End ops.
Arguments t : clear implicits.
End JsMap.

(** ** Handlers with awaited calls

    A computation over a state [S] that logs calls of type [C] and may
    throw.  State updates made before a throw stay (a [setState] is not
    undone by an exception). *)

Module Eff.
Section eff.
Context {S C : Type}.

Record World := mkWorld { st : S; calls : list C }.

Definition M (A : Type) : Type := World -> option A * World.

Definition ret {A} (a : A) : M A := fun w => (Some a, w).

Definition bind {A B} (m : M A) (k : A -> M B) : M B :=
  fun w =>
    match m w with
    | (Some a, w') => k a w'
    | (None, w') => (None, w')
    end.

(** A state setter. *)
Definition modify (f : S -> S) : M unit :=
  fun w => (Some tt, mkWorld (f (st w)) (calls w)).

(** [await call(...)]: the call is logged; a rejected promise throws. *)
Definition await {A} (c : C) (reply : option A) : M A :=
  fun w => (reply, mkWorld (st w) (calls w ++ [c])).

(** A call whose promise is not awaited here (a callback, or a promise
    collected for [Promise.all]). *)
Definition emit (c : C) : M unit :=
  fun w => (Some tt, mkWorld (st w) (calls w ++ [c])).

(** Leave the [try] body by a thrown exception. *)
Definition throw {A} : M A := fun w => (None, w).

(** [try { body } catch { handler }]. *)
Definition try_catch {A} (body handler : M A) : M A :=
  fun w =>
    match body w with
    | (Some a, w') => (Some a, w')
    | (None, w') => handler w'
    end.

(** [try { body } finally { fin }]; [fin] does not throw. *)
Definition finally {A} (body : M A) (fin : S -> S) : M A :=
  fun w =>
    let '(r, w') := body w in
    (r, mkWorld (fin (st w')) (calls w')).

(** Run a handler on a state with an empty call log. *)
Definition run {A} (m : M A) (s : S) : S * list C :=
  let '(_, w) := m (mkWorld s []) in (st w, calls w).

(** Whether the computation ends by a thrown exception. *)
Definition throws {A} (m : M A) (s : S) : bool :=
  match m (mkWorld s []) with
  | (Some _, _) => false
  | (None, _) => true
  end.

End eff.
Arguments World : clear implicits.
Arguments M : clear implicits.
End Eff.

#[global] Instance eff_ret {S C} : MRet (Eff.M S C) := fun A a => Eff.ret a.
#[global] Instance eff_bind {S C} : MBind (Eff.M S C) :=
  fun A B k m => Eff.bind m k.

(** ** Catalog records (DocumentPickerModal) *)

Module LibraryDocument.
Record t := mk {
  id : string;
  filename : string;
  original_filename : string;
  content_type : string;
  file_size : Z;
  created_at : string;
}.
End LibraryDocument.

Module LibraryPaper.
Record t := mk {
  paper_id : string;
  title : string;
  pdf_url : option string;
  arxiv_id : option string;
  source : option string;
  has_local_pdf : bool;
  document_id : option string;
  folder_id : string;
}.
End LibraryPaper.

Module LibraryRepo.
Record t := mk {
  repo_id : string;
  full_name : string;
  description : option string;
  html_url : string;
  stars_count : Z;
  primary_language : option string;
  has_local_doc : bool;
  document_id : option string;
  folder_id : string;
}.
End LibraryRepo.

Module LibraryFolder.
#[warnings="-register-all"]
Inductive t := mk {
  id : string;
  name : string;
  parent_id : option string;
  documents : list LibraryDocument.t;
  papers : list LibraryPaper.t;
  repos : list LibraryRepo.t;
  children : list t;
}.
End LibraryFolder.

Module LibraryResponse.
Record t := mk {
  folders : list LibraryFolder.t;
  root_documents : list LibraryDocument.t;
}.
End LibraryResponse.

Module EmbedStatusItem.
Record t := mk {
  document_id : string;
  status : string;
  chunk_count : Z;
  error_message : option string;
}.
End EmbedStatusItem.

(** The [type] tag of a selected item: "document", "paper" or "repo". *)
Inductive ItemType := type_document | type_paper | type_repo.

Definition ItemType_eqb (a b : ItemType) : bool :=
  match a, b with
  | type_document, type_document
  | type_paper, type_paper
  | type_repo, type_repo => true
  | _, _ => false
  end.

Module SelectedItem.
Record t := mk {
  type : ItemType;
  id : string;
  label : string;
  contentType : option string;
  paper : option LibraryPaper.t;
  repo : option LibraryRepo.t;
}.
End SelectedItem.

(** ** DocumentPickerModal *)

Module DocumentPickerModal.

(** The component's state hooks. *)
Record State := mkState {
  library : option LibraryResponse.t;
  selectedItems : JsMap.t SelectedItem.t;
  embedStatuses : gmap string EmbedStatusItem.t;
  loading : bool;
  embedding : bool;
  error : option string;
}.

Definition setLibrary (v : option LibraryResponse.t) (s : State) : State :=
  mkState v (selectedItems s) (embedStatuses s) (loading s) (embedding s) (error s).
Definition setSelectedItems
    (f : JsMap.t SelectedItem.t -> JsMap.t SelectedItem.t) (s : State) : State :=
  mkState (library s) (f (selectedItems s)) (embedStatuses s) (loading s)
          (embedding s) (error s).
Definition setEmbedStatuses (v : gmap string EmbedStatusItem.t) (s : State) : State :=
  mkState (library s) (selectedItems s) v (loading s) (embedding s) (error s).
Definition setLoading (v : bool) (s : State) : State :=
  mkState (library s) (selectedItems s) (embedStatuses s) v (embedding s) (error s).
Definition setEmbedding (v : bool) (s : State) : State :=
  mkState (library s) (selectedItems s) (embedStatuses s) (loading s) v (error s).
Definition setError (v : option string) (s : State) : State :=
  mkState (library s) (selectedItems s) (embedStatuses s) (loading s) (embedding s) v.

(** What the component calls: the API functions it imports and the two
    callback props. *)
Inductive Call :=
| fetchDocumentLibrary
| embedDocuments (documentIds paperIds : list string)
| embedRepos (repoIds : list string)
| fetchEmbedStatus (documentIds : list string)
| onConfirm (documentIds : list string)
| onClose.

(** The body of an embed or status reply: [{ results: EmbedStatusItem[] }]. *)
Record EmbedResponse := mkEmbedResponse { results : list EmbedStatusItem.t }.

(** *** Selection keys *)

Definition docKey (id : string) : string := "doc:" +:+ id.
Definition paperKey (paper_id : string) : string := "paper:" +:+ paper_id.
Definition repoKey (repo_id : string) : string := "repo:" +:+ repo_id.

(** *** toggleDoc *)

(** One iteration of the loop of [findDoc]: the folder's own documents,
    then its children, depth first. *)
Fixpoint findDocFolder (id : string) (f : LibraryFolder.t)
    : option LibraryDocument.t :=
  match List.find (fun d => JsString.eqb (LibraryDocument.id d) id)
                  (LibraryFolder.documents f) with
  | Some d => Some d
  | None =>
      (fix findDoc (folders : list LibraryFolder.t) : option LibraryDocument.t :=
         match folders with
         | [] => None
         | c :: cs =>
             match findDocFolder id c with
             | Some d => Some d
             | None => findDoc cs
             end
         end) (LibraryFolder.children f)
  end.

Fixpoint findDoc (id : string) (folders : list LibraryFolder.t)
    : option LibraryDocument.t :=
  match folders with
  | [] => None
  | f :: fs =>
      match findDocFolder id f with
      | Some d => Some d
      | None => findDoc id fs
      end
  end.

(** The updater passed to [setSelectedItems] by [toggleDoc]; [lib] is the
    [library] state the closure sees. *)
Definition toggleDoc (lib : option LibraryResponse.t) (id : string)
    (prev : JsMap.t SelectedItem.t) : JsMap.t SelectedItem.t :=
  let key := docKey id in
  if JsMap.has key prev then JsMap.delete key prev
  else
    let doc :=
      match lib with
      | Some l => findDoc id (LibraryResponse.folders l)
      | None => None
      end in
    JsMap.set key
      {| SelectedItem.type := type_document;
         SelectedItem.id := id;
         SelectedItem.label :=
           JsString.or_else (LibraryDocument.original_filename <$> doc) id;
         SelectedItem.contentType := LibraryDocument.content_type <$> doc;
         SelectedItem.paper := None;
         SelectedItem.repo := None |} prev.

(** *** togglePaper, toggleRepo, removeItem *)

Definition togglePaper (paper : LibraryPaper.t)
    (prev : JsMap.t SelectedItem.t) : JsMap.t SelectedItem.t :=
  let key := paperKey (LibraryPaper.paper_id paper) in
  if JsMap.has key prev then JsMap.delete key prev
  else
    JsMap.set key
      {| SelectedItem.type := type_paper;
         SelectedItem.id := LibraryPaper.paper_id paper;
         SelectedItem.label := LibraryPaper.title paper;
         SelectedItem.contentType := Some "application/pdf";
         SelectedItem.paper := Some paper;
         SelectedItem.repo := None |} prev.

Definition toggleRepo (repo : LibraryRepo.t)
    (prev : JsMap.t SelectedItem.t) : JsMap.t SelectedItem.t :=
  let key := repoKey (LibraryRepo.repo_id repo) in
  if JsMap.has key prev then JsMap.delete key prev
  else
    JsMap.set key
      {| SelectedItem.type := type_repo;
         SelectedItem.id := LibraryRepo.repo_id repo;
         SelectedItem.label := LibraryRepo.full_name repo;
         SelectedItem.contentType := Some "text/x-github-repo";
         SelectedItem.paper := None;
         SelectedItem.repo := Some repo |} prev.

Definition removeItem (key : string)
    (prev : JsMap.t SelectedItem.t) : JsMap.t SelectedItem.t :=
  JsMap.delete key prev.

(** The three toggles behind one entry point: the catalog item that is
    toggled fixes the kind and the id. *)
Inductive Item :=
| Doc (id : string)
| Paper (paper : LibraryPaper.t)
| Repo (repo : LibraryRepo.t).

Definition itemKey (it : Item) : string :=
  match it with
  | Doc id => docKey id
  | Paper p => paperKey (LibraryPaper.paper_id p)
  | Repo r => repoKey (LibraryRepo.repo_id r)
  end.

Definition toggle (lib : option LibraryResponse.t) (it : Item)
    (prev : JsMap.t SelectedItem.t) : JsMap.t SelectedItem.t :=
  match it with
  | Doc id => toggleDoc lib id prev
  | Paper p => togglePaper p prev
  | Repo r => toggleRepo r prev
  end.

(** *** The checkboxes of FolderNode *)

(** The [disabled] attribute of a paper's checkbox:
    [!paper.pdf_url && !paper.has_local_pdf]. *)
Definition paperDisabled (p : LibraryPaper.t) : bool :=
  negb (JsString.truthy_opt (LibraryPaper.pdf_url p))
  && negb (LibraryPaper.has_local_pdf p).

(** What a user can do to the selection in the rendered picker: change a
    checkbox (a disabled checkbox fires no [onChange]) or press the
    remove button of a selected entry. *)
Inductive Click :=
| ClickDoc (id : string)
| ClickPaper (p : LibraryPaper.t)
| ClickRepo (r : LibraryRepo.t)
| ClickRemove (key : string).

Definition click (lib : option LibraryResponse.t) (c : Click)
    (prev : JsMap.t SelectedItem.t) : JsMap.t SelectedItem.t :=
  match c with
  | ClickDoc id => toggleDoc lib id prev
  | ClickPaper p => if paperDisabled p then prev else togglePaper p prev
  | ClickRepo r => toggleRepo r prev
  | ClickRemove key => removeItem key prev
  end.

Definition clicks (lib : option LibraryResponse.t) (cs : list Click)
    (sel : JsMap.t SelectedItem.t) : JsMap.t SelectedItem.t :=
  foldl (fun m c => click lib c m) sel cs.

(** A selection entry sits under the key of its kind and id, and a paper
    entry holds a catalog record whose checkbox is enabled. *)
Definition entryOk (k : string) (item : SelectedItem.t) : Prop :=
  match SelectedItem.type item with
  | type_document =>
      k = docKey (SelectedItem.id item) ∧ SelectedItem.paper item = None
  | type_paper =>
      ∃ p, SelectedItem.paper item = Some p
           ∧ k = paperKey (LibraryPaper.paper_id p)
           ∧ paperDisabled p = false
  | type_repo =>
      k = repoKey (SelectedItem.id item) ∧ SelectedItem.paper item = None
  end.

(** The selection restored when the picker opens: one document entry per
    id of [initialDocumentIds], labelled by the id. *)
Definition initialSelection (initialDocumentIds : list string)
    : JsMap.t SelectedItem.t :=
  foldl (fun initial id =>
           JsMap.set (docKey id)
             {| SelectedItem.type := type_document;
                SelectedItem.id := id;
                SelectedItem.label := id;
                SelectedItem.contentType := None;
                SelectedItem.paper := None;
                SelectedItem.repo := None |} initial)
        JsMap.empty initialDocumentIds.

(** [loadLibrary]. *)
Definition loadLibrary (reply : option LibraryResponse.t) : Eff.M State Call unit :=
  Eff.modify (setLoading true) ;;
  Eff.finally
    (Eff.try_catch
       (data ← Eff.await fetchDocumentLibrary reply ;
        Eff.modify (setLibrary (Some data)))
       (Eff.modify (setError (Some "Failed to load library"))))
    (setLoading false).

(** The rest of the effect run when [isOpen] becomes true, next to
    [loadLibrary]. *)
Definition openPicker (initialDocumentIds : list string) (s : State) : State :=
  setError None
    (setEmbedStatuses ∅
       (setSelectedItems (fun _ => initialSelection initialDocumentIds) s)).

(** *** handleConfirm *)

Definition idsOfType (ty : ItemType) (items : list SelectedItem.t) : list string :=
  map SelectedItem.id (filter (fun i => ItemType_eqb (SelectedItem.type i) ty = true) items).

Definition nonEmpty {A} (l : list A) : bool := (0 <? length l)%nat.

(** The promises pushed for [Promise.all], each with the reply it settles
    to: the documents-and-papers request when either list is non-empty,
    then the repositories request when that list is non-empty. *)
Definition requests (sel : JsMap.t SelectedItem.t)
    (docsReply reposReply : option EmbedResponse)
    : list (Call * option EmbedResponse) :=
  let items := JsMap.values sel in
  let documentIds := idsOfType type_document items in
  let paperIds := idsOfType type_paper items in
  let repoIds := idsOfType type_repo items in
  (if nonEmpty documentIds || nonEmpty paperIds
   then [(embedDocuments documentIds paperIds, docsReply)] else [])
  ++ (if nonEmpty repoIds then [(embedRepos repoIds, reposReply)] else []).

(** [Promise.all]: every result in order, or a rejection if one promise
    rejects. *)
Fixpoint promiseAll {A} (rs : list (option A)) : option (list A) :=
  match rs with
  | [] => Some []
  | r :: rs' =>
      match r, promiseAll rs' with
      | Some a, Some l => Some (a :: l)
      | _, _ => None
      end
  end.

(** [allResults]: the results of every reply, concatenated. *)
Definition mergeResults (rs : list EmbedResponse) : list EmbedStatusItem.t :=
  concat (map results rs).

(** The status map built from a result list; a later entry overwrites an
    earlier one of the same id. *)
Definition statusMap (rs : list EmbedStatusItem.t) : gmap string EmbedStatusItem.t :=
  foldl (fun m item => <[EmbedStatusItem.document_id item := item]> m) ∅ rs.

Definition hasStatus (st : string) (r : EmbedStatusItem.t) : bool :=
  JsString.eqb (EmbedStatusItem.status r) st.

Definition failuresOf (allResults : list EmbedStatusItem.t) : list EmbedStatusItem.t :=
  filter (fun r => hasStatus "failed" r = true) allResults.

Definition successIdsOf (allResults : list EmbedStatusItem.t) : list string :=
  map EmbedStatusItem.document_id
      (filter (fun r => hasStatus "completed" r = true) allResults).

(** The body of the [try] block. *)
Definition handleConfirm_try (sel : JsMap.t SelectedItem.t)
    (docsReply reposReply : option EmbedResponse) : Eff.M State Call unit :=
  let reqs := requests sel docsReply reposReply in
  foldr (fun rq k => Eff.emit rq.1 ;; k) (Eff.ret tt) reqs ;;
  res ← (match promiseAll (map snd reqs) with
         | Some res => Eff.ret res
         | None => Eff.throw
         end) ;
  let allResults := mergeResults res in
  Eff.modify (setEmbedStatuses (statusMap allResults)) ;;
  let failures := failuresOf allResults in
  if (0 <? length failures)%nat && (length failures =? length allResults)%nat
  then
    Eff.modify (setError (Some "All items failed to embed")) ;;
    Eff.modify (setEmbedding false) ;;
    Eff.ret tt
  else
    Eff.emit (onConfirm (successIdsOf allResults)).

Definition handleConfirm (docsReply reposReply : option EmbedResponse)
    : Eff.M State Call unit :=
  fun w =>
    let sel := selectedItems (Eff.st w) in
    if (JsMap.size sel =? 0)%nat then Eff.ret tt w
    else
      (Eff.modify (setEmbedding true) ;;
       Eff.modify (setError None) ;;
       Eff.finally
         (Eff.try_catch
            (handleConfirm_try sel docsReply reposReply)
            (Eff.modify (setError (Some "Failed to embed documents"))))
         (setEmbedding false)) w.

(** The merged outcomes of a submission: [allResults], when the handler
    gets as far as computing it. *)
Definition mergedOutcomes (s : State)
    (docsReply reposReply : option EmbedResponse)
    : option (list EmbedStatusItem.t) :=
  if (JsMap.size (selectedItems s) =? 0)%nat then None
  else mergeResults <$> promiseAll (map snd (requests (selectedItems s) docsReply reposReply)).

(** The ids handed to the [onConfirm] prop, one list per invocation. *)
Definition confirmed (cs : list Call) : list (list string) :=
  omap (fun c => match c with onConfirm ids => Some ids | _ => None end) cs.

(** *** The status query run when the selection changes *)

Definition loadStatus (reply : option EmbedResponse) : Eff.M State Call unit :=
  fun w =>
    let docIds := idsOfType type_document (JsMap.values (selectedItems (Eff.st w))) in
    if (length docIds =? 0)%nat then Eff.ret tt w
    else
      Eff.try_catch
        (data ← Eff.await (fetchEmbedStatus docIds) reply ;
         Eff.modify (setEmbedStatuses (statusMap (results data))))
        (Eff.ret tt) w.

End DocumentPickerModal.


(** ** Messages and conversations (ChatPage) *)

Module Citation.
Record t := mk {
  title : option string;
  source : option string;
  url : option string;
  type : option string;
  relevance_score : option float;
}.
End Citation.

(** The [role] of a message: "user" or "assistant". *)
Inductive Role := user | assistant.

Module Message.
Record t := mk {
  id : option string;
  role : Role;
  content : string;
  citations : option (list Citation.t);
  confidence : option float;
}.
End Message.

Module ConversationItem.
Record t := mk {
  id : string;
  title : option string;
  mode : string;
  context_mode : string;
  created_at : string;
  updated_at : string;
  last_message_preview : option string;
}.
End ConversationItem.

(** [activeMode]: "global" or "documents". *)
Inductive Mode := global | documents.

(** [contextMode]: "rag" or "full_context". *)
Inductive ContextMode := rag | full_context.

Definition Mode_eqb (a b : Mode) : bool :=
  match a, b with
  | global, global | documents, documents => true
  | _, _ => false
  end.

(** A conversation as the server returns it from [createConversation] and
    [fetchConversation]; an absent or empty field is [None]. *)
Module Conversation.
Record t := mk {
  id : string;
  mode : option Mode;
  context_mode : option ContextMode;
  document_ids : option (list string);
  messages : list Message.t;
}.
End Conversation.

Module ChatPage.

(** The component's state hooks. *)
Record State := mkState {
  conversations : list ConversationItem.t;
  activeConversationId : option string;
  activeMode : Mode;
  contextMode : ContextMode;
  activeDocumentIds : list string;
  messages : list Message.t;
  input : string;
  loading : bool;
  sidebarOpen : bool;
  pickerOpen : bool;
}.

(** The values of the [useState] calls. *)
Definition initialState : State :=
  mkState [] None global rag [] [] "" false true false.

Definition setConversations
    (f : list ConversationItem.t -> list ConversationItem.t) (s : State) : State :=
  mkState (f (conversations s)) (activeConversationId s) (activeMode s)
          (contextMode s) (activeDocumentIds s) (messages s) (input s)
          (loading s) (sidebarOpen s) (pickerOpen s).
Definition setActiveConversationId (v : option string) (s : State) : State :=
  mkState (conversations s) v (activeMode s) (contextMode s)
          (activeDocumentIds s) (messages s) (input s) (loading s)
          (sidebarOpen s) (pickerOpen s).
Definition setActiveMode (v : Mode) (s : State) : State :=
  mkState (conversations s) (activeConversationId s) v (contextMode s)
          (activeDocumentIds s) (messages s) (input s) (loading s)
          (sidebarOpen s) (pickerOpen s).
Definition setContextMode (v : ContextMode) (s : State) : State :=
  mkState (conversations s) (activeConversationId s) (activeMode s) v
          (activeDocumentIds s) (messages s) (input s) (loading s)
          (sidebarOpen s) (pickerOpen s).
Definition setActiveDocumentIds (v : list string) (s : State) : State :=
  mkState (conversations s) (activeConversationId s) (activeMode s)
          (contextMode s) v (messages s) (input s) (loading s)
          (sidebarOpen s) (pickerOpen s).
Definition setMessages (f : list Message.t -> list Message.t) (s : State) : State :=
  mkState (conversations s) (activeConversationId s) (activeMode s)
          (contextMode s) (activeDocumentIds s) (f (messages s)) (input s)
          (loading s) (sidebarOpen s) (pickerOpen s).
Definition setInput (v : string) (s : State) : State :=
  mkState (conversations s) (activeConversationId s) (activeMode s)
          (contextMode s) (activeDocumentIds s) (messages s) v (loading s)
          (sidebarOpen s) (pickerOpen s).
Definition setLoading (v : bool) (s : State) : State :=
  mkState (conversations s) (activeConversationId s) (activeMode s)
          (contextMode s) (activeDocumentIds s) (messages s) (input s) v
          (sidebarOpen s) (pickerOpen s).
Definition setPickerOpen (v : bool) (s : State) : State :=
  mkState (conversations s) (activeConversationId s) (activeMode s)
          (contextMode s) (activeDocumentIds s) (messages s) (input s)
          (loading s) (sidebarOpen s) v.

(** The API functions the component calls. *)
Inductive Call :=
| fetchConversations
| createConversation (title : option string) (mode : Mode) (contextMode : ContextMode)
| fetchConversation (id : string)
| deleteConversation (id : string)
| sendConversationMessage (conversationId question : string)
| setConversationDocuments (conversationId : string) (documentIds : list string)
| updateContextMode (conversationId : string) (contextMode : ContextMode).

(** The field-by-field copy applied to every message of a reply. *)
Definition copyMessage (m : Message.t) : Message.t :=
  {| Message.id := Message.id m;
     Message.role := Message.role m;
     Message.content := Message.content m;
     Message.citations := Message.citations m;
     Message.confidence := Message.confidence m |}.

(** [loadConversations], with a signed-in user. *)
Definition loadConversations (reply : option (list ConversationItem.t))
    : Eff.M State Call unit :=
  Eff.try_catch
    (data ← Eff.await fetchConversations reply ;
     Eff.modify (setConversations (fun _ => data)))
    (Eff.ret tt).

(** The reset shared by [handleNewChat] and the deletion of the active
    conversation. *)
Definition handleNewChat (s : State) : State :=
  setActiveDocumentIds []
    (setContextMode rag
       (setActiveMode global
          (setMessages (fun _ => [])
             (setActiveConversationId None s)))).

Definition handleSelectConversation (id : string)
    (reply : option Conversation.t) : Eff.M State Call unit :=
  Eff.modify (setActiveConversationId (Some id)) ;;
  Eff.try_catch
    (data ← Eff.await (fetchConversation id) reply ;
     Eff.modify (setActiveMode (default global (Conversation.mode data))) ;;
     Eff.modify (setContextMode (default rag (Conversation.context_mode data))) ;;
     Eff.modify (setActiveDocumentIds (default [] (Conversation.document_ids data))) ;;
     Eff.modify (setMessages (fun _ => map copyMessage (Conversation.messages data))))
    (Eff.modify (setMessages (fun _ => []))).

Definition handleDeleteConversation (id : string) (reply : option unit)
    : Eff.M State Call unit :=
  fun w =>
    let activeConversationId := activeConversationId (Eff.st w) in
    Eff.try_catch
      (Eff.await (deleteConversation id) reply ;;
       Eff.modify (setConversations
                     (filter (fun c => JsString.eqb (ConversationItem.id c) id = false))) ;;
       if bool_decide (activeConversationId = Some id)
       then Eff.modify handleNewChat
       else Eff.ret tt)
      (Eff.ret tt) w.

Definition handleModeToggle (s : State) : State :=
  if Mode_eqb (activeMode s) global then
    setPickerOpen true (setActiveMode documents s)
  else
    setMessages (fun _ => [])
      (setActiveConversationId None
         (setActiveDocumentIds []
            (setContextMode rag
               (setActiveMode global s)))).

(** The guard of [handleDocumentsConfirmed]:
    [!convId || activeMode !== "documents"]. *)
Definition needsConversation (s : State) : bool :=
  negb (JsString.truthy_opt (activeConversationId s))
  || negb (Mode_eqb (activeMode s) documents).

(** The replies [handleDocumentsConfirmed] may await. *)
Record ConfirmReplies := mkConfirmReplies {
  confirmCreate : option Conversation.t;
  confirmList : option (list ConversationItem.t);
  confirmAttach : option unit;
}.

Definition handleDocumentsConfirmed (docIds : list string) (r : ConfirmReplies)
    : Eff.M State Call unit :=
  fun w =>
    let s := Eff.st w in
    (Eff.modify (setPickerOpen false) ;;
     Eff.modify (setActiveDocumentIds docIds) ;;
     if (length docIds =? 0)%nat then
       Eff.modify (setActiveMode global)
     else
       (* [Some convId] to go on, [None] for the [return] of the catch *)
       go ← (if needsConversation s then
               Eff.try_catch
                 (conv ← Eff.await
                           (createConversation None documents (contextMode s))
                           (confirmCreate r) ;
                  Eff.modify (setActiveConversationId (Some (Conversation.id conv))) ;;
                  Eff.modify (setMessages (fun _ => [])) ;;
                  loadConversations (confirmList r) ;;
                  Eff.ret (Some (Conversation.id conv)))
                 (Eff.ret None)
             else Eff.ret (Some (default "" (activeConversationId s)))) ;
       match go with
       | None => Eff.ret tt
       | Some convId =>
           (* the catch only logs to the console *)
           Eff.try_catch
             (Eff.await (setConversationDocuments convId docIds) (confirmAttach r) ;;
              Eff.ret tt)
             (Eff.ret tt)
       end) w.

Definition handleContextModeToggle (mode : ContextMode) (reply : option unit)
    : Eff.M State Call unit :=
  fun w =>
    let activeConversationId := activeConversationId (Eff.st w) in
    (Eff.modify (setContextMode mode) ;;
     if JsString.truthy_opt activeConversationId then
       Eff.try_catch
         (Eff.await (updateContextMode (default "" activeConversationId) mode) reply ;;
          Eff.ret tt)
         (Eff.ret tt)
     else Eff.ret tt) w.

Definition handleManageSources (s : State) : State := setPickerOpen true s.

(** The [onClose] prop handed to the picker. *)
Definition pickerOnClose (s : State) : State :=
  let s' := setPickerOpen false s in
  if (length (activeDocumentIds s) =? 0)%nat then setActiveMode global s' else s'.



(** *** handleSend *)

Definition optimisticMessage (q : string) : Message.t :=
  {| Message.id := None; Message.role := user; Message.content := q;
     Message.citations := None; Message.confidence := None |}.

Definition failureNotice : Message.t :=
  {| Message.id := None; Message.role := assistant;
     Message.content := "Sorry, something went wrong. Please try again.";
     Message.citations := None; Message.confidence := None |}.

(** The replies [handleSend] may await. *)
Record SendReplies := mkSendReplies {
  sendCreate : option Conversation.t;
  sendAttach : option unit;
  sendMessage : option (list Message.t);
  sendList : option (list ConversationItem.t);
}.

(** The guard [if (!q || loading) return]: the trimmed question of an
    accepted send. *)
Definition handleSend_accepts (s : State) : option string :=
  let q := JsString.trim (input s) in
  if negb (JsString.truthy q) || loading s then None else Some q.

(** The three setters that run before the first [await]. *)
Definition handleSend_sync (q : string) (s : State) : State :=
  setLoading true
    (setMessages (fun prev => (prev ++ [optimisticMessage q])%list)
       (setInput "" s)).

(** [prev.slice(0, -1)]. *)
Definition withoutLast {A} (prev : list A) : list A :=
  take (length prev - 1) prev.

(** The body of the [try] block; [s] is the state the closure was created
    in, [q] the trimmed question. *)
Definition handleSend_try (s : State) (q : string) (r : SendReplies)
    : Eff.M State Call unit :=
  convId ← (if negb (JsString.truthy_opt (activeConversationId s)) then
              conv ← Eff.await
                       (createConversation None (activeMode s) (contextMode s))
                       (sendCreate r) ;
              Eff.modify (setActiveConversationId (Some (Conversation.id conv))) ;;
              (if Mode_eqb (activeMode s) documents
                  && (0 <? length (activeDocumentIds s))%nat
               then
                 Eff.await (setConversationDocuments (Conversation.id conv)
                                                     (activeDocumentIds s))
                           (sendAttach r) ;;
                 Eff.ret tt
               else Eff.ret tt) ;;
              Eff.ret (Conversation.id conv)
            else Eff.ret (default "" (activeConversationId s))) ;
  data ← Eff.await (sendConversationMessage convId q) (sendMessage r) ;
  Eff.modify (setMessages (fun prev => (withoutLast prev ++ map copyMessage data)%list)) ;;
  loadConversations (sendList r).

(** Everything after the synchronous prefix: try, catch, finally. *)
Definition handleSend_async (s : State) (q : string) (r : SendReplies)
    : Eff.M State Call unit :=
  Eff.finally
    (Eff.try_catch
       (handleSend_try s q r)
       (Eff.modify (setMessages (fun prev => (prev ++ [failureNotice])%list))))
    (setLoading false).

Definition handleSend (r : SendReplies) : Eff.M State Call unit :=
  fun w =>
    match handleSend_accepts (Eff.st w) with
    | None => Eff.ret tt w
    | Some q =>
        (Eff.modify (handleSend_sync q) ;;
         handleSend_async (Eff.st w) q r) w
    end.

(** Whether a send that was accepted in state [s] fails: its [try] block
    is left by an exception. *)
Definition sendFails (s : State) (q : string) (r : SendReplies) : bool :=
  Eff.throws (handleSend_try s q r) (handleSend_sync q s).

End ChatPage.


(** ** The controller under interleaved events

    [handleSend] suspends at its awaits, so other handlers can run while a
    send is unresolved.  A system state keeps the component state, the
    sends that were accepted and have not settled yet (each with the state
    its closure saw and its trimmed question), and the log of calls. *)

Module Controller.
Import ChatPage.

Record Pending := mkPending {
  closure : State;
  question : string;
}.

Record System := mkSystem {
  chat : State;
  outstanding : list Pending;
  log : list Call;
}.

Definition initialSystem : System := mkSystem initialState [] [].

Inductive Event :=
| EvInput (text : string)
| EvSend
| EvSettle (r : SendReplies)
| EvNewChat
| EvSelectConversation (id : string) (reply : option Conversation.t)
| EvDeleteConversation (id : string) (reply : option unit)
| EvModeToggle
| EvDocumentsConfirmed (docIds : list string) (r : ConfirmReplies)
| EvContextModeToggle (mode : ContextMode) (reply : option unit)
| EvManageSources
| EvPickerClose
| EvLoadConversations (reply : option (list ConversationItem.t)).

(** A handler that is not [handleSend], run to its end. *)
Definition perform (m : Eff.M State Call unit) (sys : System) : System :=
  let '(s, cs) := Eff.run m (chat sys) in
  mkSystem s (outstanding sys) (log sys ++ cs).

Definition step (sys : System) (e : Event) : System :=
  match e with
  | EvInput text => perform (Eff.modify (setInput text)) sys
  | EvSend =>
      match handleSend_accepts (chat sys) with
      | None => sys
      | Some q =>
          mkSystem (handleSend_sync q (chat sys))
                   (outstanding sys ++ [mkPending (chat sys) q])
                   (log sys)
      end
  | EvSettle r =>
      match outstanding sys with
      | [] => sys
      | p :: rest =>
          let '(s, cs) :=
            Eff.run (handleSend_async (closure p) (question p) r) (chat sys) in
          mkSystem s rest (log sys ++ cs)
      end
  | EvNewChat => perform (Eff.modify handleNewChat) sys
  | EvSelectConversation id reply => perform (handleSelectConversation id reply) sys
  | EvDeleteConversation id reply => perform (handleDeleteConversation id reply) sys
  | EvModeToggle => perform (Eff.modify handleModeToggle) sys
  | EvDocumentsConfirmed docIds r => perform (handleDocumentsConfirmed docIds r) sys
  | EvContextModeToggle mode reply => perform (handleContextModeToggle mode reply) sys
  | EvManageSources => perform (Eff.modify handleManageSources) sys
  | EvPickerClose => perform (Eff.modify pickerOnClose) sys
  | EvLoadConversations reply => perform (loadConversations reply) sys
  end.

Definition steps (evs : list Event) (sys : System) : System :=
  foldl step sys evs.

(** Either nothing is outstanding and the loading flag is clear, or exactly
    one send is outstanding and the flag is set. *)
Definition serialized (sys : System) : Prop :=
  (outstanding sys = [] ∧ loading (chat sys) = false)
  ∨ (∃ p, outstanding sys = [p] ∧ loading (chat sys) = true).

(** The controller is idle in global mode: no conversation bound, context
    mode rag, no attached ids. *)
Definition isIdleGlobal (s : State) : bool :=
  Mode_eqb (activeMode s) global
  && match contextMode s with rag => true | full_context => false end
  && negb (JsString.truthy_opt (activeConversationId s))
  && (length (activeDocumentIds s) =? 0)%nat.

(** The picker's [onConfirm] prop is [handleDocumentsConfirmed]: a
    submission followed by the controller's reaction to every list the
    picker hands back. *)
Definition submitAndConfirm
    (docsReply reposReply : option DocumentPickerModal.EmbedResponse)
    (r : ConfirmReplies)
    (p : DocumentPickerModal.State) (s : State)
    : DocumentPickerModal.State * State * list Call :=
  let '(p', pcalls) :=
    Eff.run (DocumentPickerModal.handleConfirm docsReply reposReply) p in
  let '(s', calls) :=
    foldl (fun (acc : State * list Call) ids =>
             let '(s', cs) := Eff.run (handleDocumentsConfirmed ids r) acc.1 in
             (s', (acc.2 ++ cs)%list))
          (s, []) (DocumentPickerModal.confirmed pcalls) in
  (p', s', calls).

End Controller.

(** ** The status badge of a selected entry *)

Module SelectedPanel.

(** The badge rendered beside a selected entry; [Failed] carries the
    tooltip. *)
Inductive Badge :=
| Ingested
| WillIngest
| PdfReady
| WillDownload
| Cached
| Embedding
| Failed (title : string)
| Pending.

(** [x?.flag] read as a condition: an absent record is falsy. *)
Definition flagOf {A} (flag : A -> bool) (x : option A) : bool :=
  match x with
  | Some a => flag a
  | None => false
  end.

Definition statusBadge (embedStatuses : gmap string EmbedStatusItem.t)
    (item : SelectedItem.t) : Badge :=
  let status :=
    if ItemType_eqb (SelectedItem.type item) type_document
    then embedStatuses !! SelectedItem.id item
    else None in
  if ItemType_eqb (SelectedItem.type item) type_repo then
    if flagOf LibraryRepo.has_local_doc (SelectedItem.repo item)
    then Ingested else WillIngest
  else if ItemType_eqb (SelectedItem.type item) type_paper then
    if flagOf LibraryPaper.has_local_pdf (SelectedItem.paper item)
    then PdfReady else WillDownload
  else
    match status with
    | Some st =>
        if JsString.eqb (EmbedStatusItem.status st) "completed" then Cached
        else if JsString.eqb (EmbedStatusItem.status st) "processing" then Embedding
        else if JsString.eqb (EmbedStatusItem.status st) "failed"
        then Failed (JsString.or_else (EmbedStatusItem.error_message st) "")
        else Pending
    | None => Pending
    end.

End SelectedPanel.

(** ** The documents of a catalog tree *)

Module Catalog.

(** Every document of a folder in the order [findDoc] visits them: the
    folder's own documents, then each child's, depth first. *)
Fixpoint allDocs (f : LibraryFolder.t) : list LibraryDocument.t :=
  LibraryFolder.documents f
  ++ (fix childDocs (fs : list LibraryFolder.t) : list LibraryDocument.t :=
        match fs with
        | [] => []
        | c :: cs => allDocs c ++ childDocs cs
        end) (LibraryFolder.children f).

(** The documents [toggleDoc] can look up: those of the folders of the
    loaded library ([root_documents] is not searched). *)
Definition searchable (lib : option LibraryResponse.t) : list LibraryDocument.t :=
  match lib with
  | Some l => flat_map allDocs (LibraryResponse.folders l)
  | None => []
  end.

End Catalog.

(** ** FileViewerModal: the helpers of the file preview *)

Module FileViewerModal.

(** [s.split(sep)] for a one-character separator: the pieces between the
    separators, in order; never empty. *)
Fixpoint split (sep : ascii) (s : string) : list string :=
  match s with
  | EmptyString => [EmptyString]
  | String c r =>
      if Ascii.eqb c sep then EmptyString :: split sep r
      else
        match split sep r with
        | [] => [String c EmptyString]
        | h :: t => String c h :: t
        end
  end.




Definition textTypes : list string :=
  ["text/plain"; "text/markdown"; "text/csv"; "text/html"; "application/json";
   "text/xml"].

Definition textExts : list string :=
  ["txt"; "md"; "csv"; "json"; "xml"; "html"; "log"; "yml"; "yaml";
   "py"; "js"; "ts"; "jsx"; "tsx"; "rs"; "go"; "java"; "c"; "cpp";
   "h"; "hpp"; "cs"; "rb"; "php"; "sh"; "bash"; "zsh"; "bat";
   "sql"; "r"; "m"; "swift"; "kt"; "scala"; "lua"; "pl";
   "toml"; "ini"; "cfg"; "conf"; "env"; "gitignore"; "dockerfile";
   "makefile"; "cmake"; "gradle"; "properties"].

(** [xs.includes(x)] on an array of strings. *)
Definition includes (xs : list string) (x : string) : bool :=
  existsb (fun y => JsString.eqb y x) xs.

Definition isPreviewableText (contentType ext : string) : bool :=
  includes textTypes contentType
  || String.prefix "text/" contentType
  || includes textExts ext.

Definition isPdf (contentType ext : string) : bool :=
  JsString.eqb contentType "application/pdf" || JsString.eqb ext "pdf".

(** The double quote character. *)
Definition DQ : ascii := ascii_of_N 34.

(** The inner loop of [parseCsv] over the characters of one line that are
    still to be read, with the loop's three variables; the cell in
    progress is pushed when the line ends. *)
Fixpoint parseLine (line : string) (inQuotes : bool) (current : string)
    (cells : list string) : list string :=
  match line with
  | EmptyString => cells ++ [current]
  | String ch rest =>
      if inQuotes then
        if Ascii.eqb ch DQ then
          match rest with
          | String next rest' =>
              if Ascii.eqb next DQ
              then parseLine rest' true (current +:+ String DQ EmptyString) cells
              else parseLine rest false current cells
          | EmptyString => parseLine rest false current cells
          end
        else parseLine rest true (current +:+ String ch EmptyString) cells
      else
        if Ascii.eqb ch DQ then parseLine rest true current cells
        else if Ascii.eqb ch "," then parseLine rest false EmptyString (cells ++ [current])
        else parseLine rest false (current +:+ String ch EmptyString) cells
  end.



End FileViewerModal.

(** ** Sample data *)

Module Sample.

Definition paperNoPdf : LibraryPaper.t :=
  {| LibraryPaper.paper_id := "p1";
     LibraryPaper.title := "Attention";
     LibraryPaper.pdf_url := None;
     LibraryPaper.arxiv_id := None;
     LibraryPaper.source := None;
     LibraryPaper.has_local_pdf := false;
     LibraryPaper.document_id := None;
     LibraryPaper.folder_id := "f1" |}.

Definition paperWithUrl : LibraryPaper.t :=
  {| LibraryPaper.paper_id := "p2";
     LibraryPaper.title := "Retrieval";
     LibraryPaper.pdf_url := Some "https://arxiv.org/pdf/2401.12345";
     LibraryPaper.arxiv_id := Some "2401.12345";
     LibraryPaper.source := Some "arxiv";
     LibraryPaper.has_local_pdf := false;
     LibraryPaper.document_id := None;
     LibraryPaper.folder_id := "f1" |}.

Definition docA : LibraryDocument.t :=
  {| LibraryDocument.id := "d1";
     LibraryDocument.filename := "8f3a.pdf";
     LibraryDocument.original_filename := "a.pdf";
     LibraryDocument.content_type := "application/pdf";
     LibraryDocument.file_size := 2048;
     LibraryDocument.created_at := "2025-01-01" |}.

Definition folder : LibraryFolder.t :=
  {| LibraryFolder.id := "f1";
     LibraryFolder.name := "Reading";
     LibraryFolder.parent_id := None;
     LibraryFolder.documents := [docA];
     LibraryFolder.papers := [paperNoPdf; paperWithUrl];
     LibraryFolder.repos := [];
     LibraryFolder.children := [] |}.

Definition lib : option LibraryResponse.t :=
  Some {| LibraryResponse.folders := [folder];
          LibraryResponse.root_documents := [] |}.

(** The entry the picker restores for an attached document. *)
Definition restoredD1 : SelectedItem.t :=
  {| SelectedItem.type := type_document; SelectedItem.id := "d1";
     SelectedItem.label := "d1"; SelectedItem.contentType := None;
     SelectedItem.paper := None; SelectedItem.repo := None |}.

(** The entry [toggleDoc] builds for the same document from the catalog. *)
Definition catalogD1 : SelectedItem.t :=
  {| SelectedItem.type := type_document; SelectedItem.id := "d1";
     SelectedItem.label := "a.pdf";
     SelectedItem.contentType := Some "application/pdf";
     SelectedItem.paper := None; SelectedItem.repo := None |}.

Definition outcome (id status : string) : EmbedStatusItem.t :=
  {| EmbedStatusItem.document_id := id;
     EmbedStatusItem.status := status;
     EmbedStatusItem.chunk_count := 0;
     EmbedStatusItem.error_message := None |}.

(** A picker with documents d1 and d2 selected. *)
Definition picker : DocumentPickerModal.State :=
  DocumentPickerModal.mkState lib
    (DocumentPickerModal.initialSelection ["d1"; "d2"]) ∅ false false None.

Definition reply (rs : list EmbedStatusItem.t)
    : option DocumentPickerModal.EmbedResponse :=
  Some (DocumentPickerModal.mkEmbedResponse rs).

Definition conversation (id : string) : Conversation.t :=
  {| Conversation.id := id; Conversation.mode := None;
     Conversation.context_mode := None; Conversation.document_ids := None;
     Conversation.messages := [] |}.

Definition confirmReplies : ChatPage.ConfirmReplies :=
  ChatPage.mkConfirmReplies (Some (conversation "c2")) (Some []) (Some tt).

(** A global-mode chat bound to conversation c1 with one exchange. *)
Definition activeGlobal : ChatPage.State :=
  ChatPage.mkState [] (Some "c1") global rag []
    [ChatPage.optimisticMessage "hello"; ChatPage.failureNotice]
    "" false true false.

(** A documents-mode chat bound to conversation c1 with d1 attached. *)
Definition activeDocuments : ChatPage.State :=
  ChatPage.mkState [] (Some "c1") documents rag ["d1"] [] "" false true false.

(** A fresh page with a question typed in. *)
Definition typed : ChatPage.State :=
  ChatPage.setInput " What are the latest trends in LLMs? " ChatPage.initialState.


End Sample.


(** * Properties *)

(** ** The insertion-ordered map *)

Section JsMapFacts.
Context {V : Type}.
Implicit Types (m : JsMap.t V) (k : string) (v : V).

Lemma eqb_refl_true k : String.eqb k k = true.
Proof. apply String.eqb_refl. Qed.

Lemma eqb_false_ne k k' : String.eqb k k' = false <-> k ≠ k'.
Proof. apply String.eqb_neq. Qed.

Lemma get_delete_eq k m : JsMap.get k (JsMap.delete k m) = None.
Proof.
  induction m as [|[k' v'] m IH]; simpl; [done|].
  destruct (String.eqb k k') eqn:E; simpl; [done|].
  by rewrite E.
Qed.

Lemma get_delete_ne k k' m :
  k ≠ k' → JsMap.get k' (JsMap.delete k m) = JsMap.get k' m.
Proof.
  intros Hne. induction m as [|[k0 v0] m IH]; simpl; [done|].
  destruct (String.eqb k k0) eqn:E; simpl.
  - apply String.eqb_eq in E. subst k0.
    assert (String.eqb k' k = false) as -> by (apply String.eqb_neq; congruence).
    done.
  - by rewrite IH.
Qed.

Lemma get_set_eq k v m : JsMap.get k (JsMap.set k v m) = Some v.
Proof.
  induction m as [|[k' v'] m IH]; simpl.
  - by rewrite eqb_refl_true.
  - destruct (String.eqb k k') eqn:E; simpl.
    + by rewrite eqb_refl_true.
    + by rewrite E.
Qed.

Lemma get_set_ne k k' v m :
  k ≠ k' → JsMap.get k' (JsMap.set k v m) = JsMap.get k' m.
Proof.
  intros Hne. induction m as [|[k0 v0] m IH]; simpl.
  - assert (String.eqb k' k = false) as -> by (apply String.eqb_neq; congruence).
    done.
  - destruct (String.eqb k k0) eqn:E; simpl.
    + apply String.eqb_eq in E. subst k0.
      assert (String.eqb k' k = false) as -> by (apply String.eqb_neq; congruence).
      done.
    + by rewrite IH.
Qed.

(** Setting an absent key appends the entry. *)
Lemma set_absent k v m :
  JsMap.has k m = false → JsMap.set k v m = m ++ [(k, v)].
Proof.
  unfold JsMap.has. induction m as [|[k' v'] m IH]; simpl; [done|].
  destruct (String.eqb k k') eqn:E; [done|].
  intros H. by rewrite IH.
Qed.

(** Deleting an absent key changes nothing. *)
Lemma delete_absent k m : JsMap.has k m = false → JsMap.delete k m = m.
Proof.
  unfold JsMap.has. induction m as [|[k' v'] m IH]; simpl; [done|].
  destruct (String.eqb k k') eqn:E; [done|].
  intros H. by rewrite IH.
Qed.

Lemma delete_app k m1 m2 :
  JsMap.delete k (m1 ++ m2) = JsMap.delete k m1 ++ JsMap.delete k m2.
Proof.
  induction m1 as [|[k' v'] m1 IH]; simpl; [done|].
  destruct (String.eqb k k'); by rewrite IH.
Qed.

(** Inserting an absent key and deleting it again restores the map, order
    included. *)
Lemma delete_set_absent k v m :
  JsMap.has k m = false → JsMap.delete k (JsMap.set k v m) = m.
Proof.
  intros H. rewrite (set_absent _ _ _ H), delete_app, (delete_absent _ _ H).
  simpl. rewrite eqb_refl_true. apply app_nil_r.
Qed.

Lemma has_get k m : JsMap.has k m = true <-> is_Some (JsMap.get k m).
Proof.
  unfold JsMap.has. destruct (JsMap.get k m); split; intros H; try done.
Qed.

(** What a lookup after [set] or [delete] can find. *)
Lemma get_set_inv k0 v0 k v m :
  JsMap.get k (JsMap.set k0 v0 m) = Some v →
  (k = k0 ∧ v = v0) ∨ (k ≠ k0 ∧ JsMap.get k m = Some v).
Proof.
  destruct (decide (k0 = k)) as [->|Hne].
  - rewrite get_set_eq. intros [= ->]. by left.
  - rewrite (get_set_ne _ _ _ _ Hne). intros H. right. split; [congruence|done].
Qed.

Lemma get_delete_inv k0 k v m :
  JsMap.get k (JsMap.delete k0 m) = Some v → JsMap.get k m = Some v.
Proof.
  destruct (decide (k0 = k)) as [->|Hne].
  - by rewrite get_delete_eq.
  - by rewrite (get_delete_ne _ _ _ Hne).
Qed.

(** The keys of a map stay pairwise distinct. *)
Lemma keys_delete_subseteq k m : JsMap.keys (JsMap.delete k m) ⊆ JsMap.keys m.
Proof.
  induction m as [|[k' v'] m IH]; simpl; [done|].
  destruct (String.eqb k k'); simpl.
  - by apply list_subseteq_cons.
  - intros x. rewrite !elem_of_cons. intros [->|Hx]; [by left|right; by apply IH].
Qed.

Lemma NoDup_keys_delete k m :
  NoDup (JsMap.keys m) → NoDup (JsMap.keys (JsMap.delete k m)).
Proof.
  induction m as [|[k' v'] m IH]; simpl; [done|].
  rewrite NoDup_cons. intros [Hk Hm].
  destruct (String.eqb k k'); simpl; [by apply IH|].
  apply NoDup_cons. split; [|by apply IH].
  intros Hin. apply Hk. by apply (keys_delete_subseteq k m).
Qed.

Lemma keys_set_present k v m :
  JsMap.has k m = true → JsMap.keys (JsMap.set k v m) = JsMap.keys m.
Proof.
  unfold JsMap.has. induction m as [|[k' v'] m IH]; simpl; [done|].
  destruct (String.eqb k k') eqn:E; simpl.
  - apply String.eqb_eq in E. by subst.
  - intros H. by rewrite IH.
Qed.

Lemma not_has_not_key k m : JsMap.has k m = false → k ∉ JsMap.keys m.
Proof.
  unfold JsMap.has. induction m as [|[k' v'] m IH]; simpl.
  - intros _. apply not_elem_of_nil.
  - destruct (String.eqb k k') eqn:E; [done|].
    intros H. apply not_elem_of_cons. split; [by apply String.eqb_neq|by apply IH].
Qed.

Lemma NoDup_keys_set k v m :
  NoDup (JsMap.keys m) → NoDup (JsMap.keys (JsMap.set k v m)).
Proof.
  intros Hm. destruct (JsMap.has k m) eqn:E.
  - by rewrite keys_set_present.
  - rewrite (set_absent _ _ _ E). unfold JsMap.keys. rewrite map_app. simpl.
    apply NoDup_app. split; [done|]. split; [|apply NoDup_singleton].
    intros x Hx ->%list_elem_of_singleton.
    by apply (not_has_not_key _ _ E).
Qed.

End JsMapFacts.

(** ** The selection set *)

Section SelectionFacts.
Import DocumentPickerModal.
Implicit Types (sel : JsMap.t SelectedItem.t) (lib : option LibraryResponse.t).

(** Every toggle is "delete the key if present, else set it to an entry
    that depends on the catalog item only". *)
Lemma toggle_shape lib it :
  ∃ v, ∀ sel,
    toggle lib it sel =
    if JsMap.has (itemKey it) sel
    then JsMap.delete (itemKey it) sel
    else JsMap.set (itemKey it) v sel.
Proof. destruct it; eexists; intros sel; reflexivity. Qed.

Lemma has_delete_eq (k : string) sel : JsMap.has k (JsMap.delete k sel) = false.
Proof. unfold JsMap.has. by rewrite get_delete_eq. Qed.

Lemma has_set_eq (k : string) (v : SelectedItem.t) sel :
  JsMap.has k (JsMap.set k v sel) = true.
Proof. unfold JsMap.has. by rewrite get_set_eq. Qed.

Lemma docKey_inj a b : docKey a = docKey b → a = b.
Proof. unfold docKey. intros H. by simplify_eq/=. Qed.

Lemma paperKey_inj a b : paperKey a = paperKey b → a = b.
Proof. unfold paperKey. intros H. by simplify_eq/=. Qed.

Lemma repoKey_inj a b : repoKey a = repoKey b → a = b.
Proof. unfold repoKey. intros H. by simplify_eq/=. Qed.

Lemma docKey_not_paperKey a b : docKey a ≠ paperKey b.
Proof. unfold docKey, paperKey. intros H. by simplify_eq/=. Qed.

Lemma repoKey_not_paperKey a b : repoKey a ≠ paperKey b.
Proof. unfold repoKey, paperKey. intros H. by simplify_eq/=. Qed.

(** The restored selection holds document entries only. *)
Lemma initialSelection_ok ids k item :
  JsMap.get k (initialSelection ids) = Some item → entryOk k item.
Proof.
  unfold initialSelection.
  assert (∀ acc : JsMap.t SelectedItem.t,
            (∀ k item, JsMap.get k acc = Some item → entryOk k item) →
            ∀ k item,
              JsMap.get k
                (foldl (fun initial id =>
                   JsMap.set (docKey id)
                     {| SelectedItem.type := type_document;
                        SelectedItem.id := id;
                        SelectedItem.label := id;
                        SelectedItem.contentType := None;
                        SelectedItem.paper := None;
                        SelectedItem.repo := None |} initial) acc ids)
              = Some item → entryOk k item) as Hgen.
  { induction ids as [|id ids IH]; intros acc Hacc; simpl; [exact Hacc|].
    apply IH. intros k' item' [[-> ->]|[_ H]]%get_set_inv.
    - by split.
    - by apply Hacc. }
  apply Hgen. intros k' item'. simpl. discriminate.
Qed.

(** One click keeps every entry well-formed. *)
Lemma click_ok lib c sel :
  (∀ k item, JsMap.get k sel = Some item → entryOk k item) →
  ∀ k item, JsMap.get k (click lib c sel) = Some item → entryOk k item.
Proof.
  intros Hsel k item. destruct c as [id|p|r|key]; simpl.
  - unfold toggleDoc. destruct (JsMap.has (docKey id) sel).
    + intros H%get_delete_inv. by apply Hsel.
    + intros [[-> ->]|[_ H]]%get_set_inv; [by split|by apply Hsel].
  - destruct (paperDisabled p) eqn:Hp; [apply Hsel|].
    unfold togglePaper. destruct (JsMap.has (paperKey (LibraryPaper.paper_id p)) sel).
    + intros H%get_delete_inv. by apply Hsel.
    + intros [[-> ->]|[_ H]]%get_set_inv; [|by apply Hsel].
      exists p. by repeat split.
  - unfold toggleRepo. destruct (JsMap.has (repoKey (LibraryRepo.repo_id r)) sel).
    + intros H%get_delete_inv. by apply Hsel.
    + intros [[-> ->]|[_ H]]%get_set_inv; [by split|by apply Hsel].
  - unfold removeItem. intros H%get_delete_inv. by apply Hsel.
Qed.

Lemma clicks_ok lib cs sel :
  (∀ k item, JsMap.get k sel = Some item → entryOk k item) →
  ∀ k item, JsMap.get k (clicks lib cs sel) = Some item → entryOk k item.
Proof.
  unfold clicks. revert sel. induction cs as [|c cs IH]; intros sel Hsel; simpl.
  - exact Hsel.
  - apply IH. by apply click_ok.
Qed.

(** Toggles and removals keep the keys pairwise distinct. *)
Lemma click_NoDup lib c sel :
  NoDup (JsMap.keys sel) → NoDup (JsMap.keys (click lib c sel)).
Proof.
  intros H. destruct c as [id|p|r|key]; simpl.
  - unfold toggleDoc. destruct (JsMap.has _ sel);
      [by apply NoDup_keys_delete|by apply NoDup_keys_set].
  - destruct (paperDisabled p); [done|].
    unfold togglePaper. destruct (JsMap.has _ sel);
      [by apply NoDup_keys_delete|by apply NoDup_keys_set].
  - unfold toggleRepo. destruct (JsMap.has _ sel);
      [by apply NoDup_keys_delete|by apply NoDup_keys_set].
  - by apply NoDup_keys_delete.
Qed.

Lemma initialSelection_NoDup ids : NoDup (JsMap.keys (initialSelection ids)).
Proof.
  unfold initialSelection.
  assert (∀ acc : JsMap.t SelectedItem.t,
            NoDup (JsMap.keys acc) →
            NoDup (JsMap.keys
              (foldl (fun initial id =>
                 JsMap.set (docKey id)
                   {| SelectedItem.type := type_document;
                      SelectedItem.id := id;
                      SelectedItem.label := id;
                      SelectedItem.contentType := None;
                      SelectedItem.paper := None;
                      SelectedItem.repo := None |} initial) acc ids))) as Hgen.
  { induction ids as [|id ids IH]; intros acc Hacc; simpl; [done|].
    apply IH. by apply NoDup_keys_set. }
  apply Hgen. apply NoDup_nil_2.
Qed.

(** Identity key = (kind, id): every selection the picker reaches holds
    each key once. *)
Lemma selection_keys_unique lib ids cs :
  NoDup (JsMap.keys (clicks lib cs (initialSelection ids))).
Proof.
  unfold clicks. generalize (initialSelection_NoDup ids).
  generalize (initialSelection ids) as sel.
  induction cs as [|c cs IH]; intros sel Hsel; simpl; [done|].
  apply IH. by apply click_NoDup.
Qed.

(** C1, as the claim states it, fails: [togglePaper] has no guard of its
    own.  Called on a paper with no PDF reference and no local PDF, it
    puts the paper into an empty selection. *)
Lemma togglePaper_accepts_paper_without_pdf :
  LibraryPaper.pdf_url Sample.paperNoPdf = None
  ∧ LibraryPaper.has_local_pdf Sample.paperNoPdf = false
  ∧ JsMap.has (paperKey "p1") (togglePaper Sample.paperNoPdf JsMap.empty) = true
  ∧ JsMap.values (togglePaper Sample.paperNoPdf JsMap.empty)
    = [ {| SelectedItem.type := type_paper; SelectedItem.id := "p1";
           SelectedItem.label := "Attention";
           SelectedItem.contentType := Some "application/pdf";
           SelectedItem.paper := Some Sample.paperNoPdf;
           SelectedItem.repo := None |} ].
Proof. repeat split. Qed.

(** C1 (amended): the guard is the [disabled] attribute of the paper's
    checkbox.  Starting from the selection restored when the picker opens,
    after any sequence of checkbox changes and removals every entry is
    well-formed for its key; no entry holds a catalog record that has
    neither a PDF reference nor a local PDF; and an entry under a paper
    key holds a record of that id whose checkbox is enabled. *)
Theorem disabled_paper_never_selected_by_clicks lib ids cs k item :
  JsMap.get k (clicks lib cs (initialSelection ids)) = Some item →
  entryOk k item
  ∧ (∀ p, paperDisabled p = true → SelectedItem.paper item ≠ Some p)
  ∧ (∀ pid, k = paperKey pid →
       ∃ p, SelectedItem.paper item = Some p
            ∧ LibraryPaper.paper_id p = pid
            ∧ paperDisabled p = false).
Proof.
  intros Hget.
  assert (entryOk k item) as Hok.
  { eapply clicks_ok; [|exact Hget]. apply initialSelection_ok. }
  split; [exact Hok|]. unfold entryOk in Hok. split.
  - intros p Hp Heq. destruct (SelectedItem.type item).
    + destruct Hok as [_ Hnone]. congruence.
    + destruct Hok as (p' & Hp' & _ & Hen). congruence.
    + destruct Hok as [_ Hnone]. congruence.
  - intros pid ->. destruct (SelectedItem.type item).
    + destruct Hok as [Hk _]. symmetry in Hk. by apply docKey_not_paperKey in Hk.
    + destruct Hok as (p' & Hp' & Hk & Hen). exists p'.
      split; [done|]. split; [|done]. symmetry. by apply paperKey_inj.
    + destruct Hok as [Hk _]. symmetry in Hk. by apply repoKey_not_paperKey in Hk.
Qed.

(** The amended C1 at a concrete click sequence: the disabled checkbox of
    p1 and the enabled checkbox of p2 are both pressed; p2 is selected. *)
Lemma disabled_paper_never_selected_by_clicks_witness :
  JsMap.get (paperKey "p2")
    (clicks Sample.lib [ClickPaper Sample.paperNoPdf; ClickPaper Sample.paperWithUrl]
            (initialSelection ["d1"]))
  = Some {| SelectedItem.type := type_paper; SelectedItem.id := "p2";
            SelectedItem.label := "Retrieval";
            SelectedItem.contentType := Some "application/pdf";
            SelectedItem.paper := Some Sample.paperWithUrl;
            SelectedItem.repo := None |}
  ∧ JsMap.has (paperKey "p1")
      (clicks Sample.lib [ClickPaper Sample.paperNoPdf; ClickPaper Sample.paperWithUrl]
              (initialSelection ["d1"])) = false
  ∧ (∀ p, paperDisabled p = true → Some Sample.paperWithUrl ≠ Some p).
Proof.
  split; [reflexivity|]. split; [reflexivity|].
  exact (proj1 (proj2
    (disabled_paper_never_selected_by_clicks Sample.lib ["d1"]
       [ClickPaper Sample.paperNoPdf; ClickPaper Sample.paperWithUrl]
       (paperKey "p2") _ eq_refl))).
Defined.

(** C9, as the claim states it, fails when the key is present: the second
    toggle builds a new entry from the catalog.  The picker restores
    document d1 with its id as label; unchecking and re-checking d1 leaves
    an entry labelled by the file name. *)
Lemma toggle_twice_changes_entry :
  initialSelection ["d1"] = [("doc:d1", Sample.restoredD1)]
  ∧ toggle Sample.lib (Doc "d1") (toggle Sample.lib (Doc "d1") (initialSelection ["d1"]))
    = [("doc:d1", Sample.catalogD1)]
  ∧ toggle Sample.lib (Doc "d1") (toggle Sample.lib (Doc "d1") (initialSelection ["d1"]))
    ≠ initialSelection ["d1"].
Proof. repeat split. discriminate. Qed.

(** C9 (amended): toggling the same item twice restores which keys are
    selected and leaves every other entry as it was.  The first toggle
    removes a present key and inserts an absent one.  When the key was
    absent the selection is restored exactly, order included; when it was
    present the key is selected again, with the entry the toggle builds
    from the catalog item. *)
Theorem toggle_twice_restores_keys lib it sel :
  (∀ k, JsMap.has k (toggle lib it (toggle lib it sel)) = JsMap.has k sel)
  ∧ (∀ k, k ≠ itemKey it →
       JsMap.get k (toggle lib it (toggle lib it sel)) = JsMap.get k sel)
  ∧ JsMap.has (itemKey it) (toggle lib it sel) = negb (JsMap.has (itemKey it) sel)
  ∧ (JsMap.has (itemKey it) sel = false →
       toggle lib it (toggle lib it sel) = sel)
  ∧ (∃ entry,
       toggle lib it JsMap.empty = [(itemKey it, entry)]
       ∧ (JsMap.has (itemKey it) sel = true →
            toggle lib it (toggle lib it sel)
            = JsMap.delete (itemKey it) sel ++ [(itemKey it, entry)])).
Proof.
  destruct (toggle_shape lib it) as [v Hv].
  set (key := itemKey it) in *.
  rewrite !Hv.
  destruct (JsMap.has key sel) eqn:Hhas.
  - rewrite has_delete_eq.
    assert (∀ k, k ≠ key →
              JsMap.get k (JsMap.set key v (JsMap.delete key sel)) = JsMap.get k sel) as Hother.
    { intros k Hk. rewrite get_set_ne by congruence. by rewrite get_delete_ne by congruence. }
    repeat split; try done.
    + intros k. destruct (decide (k = key)) as [->|Hk].
      * by rewrite has_set_eq.
      * unfold JsMap.has. by rewrite Hother.
    + exists v. split; [done|]. intros _. apply set_absent, has_delete_eq.
  - rewrite has_set_eq, (delete_set_absent _ _ _ Hhas). repeat split; try done.
    exists v. by split.
Qed.

End SelectionFacts.

(** ** Submission: handleConfirm *)

Section SubmitFacts.
Import DocumentPickerModal.

Lemma emit_all_run (reqs : list (Call * option EmbedResponse))
    (w : Eff.World State Call) :
  foldr (fun rq k => Eff.emit rq.1 ;; k) (Eff.ret tt) reqs w
  = (Some tt, Eff.mkWorld (Eff.st w) (Eff.calls w ++ map fst reqs)).
Proof.
  revert w. induction reqs as [|rq reqs IH]; intros [s cs]; simpl.
  - unfold Eff.ret. by rewrite app_nil_r.
  - unfold mbind, eff_bind, Eff.bind, Eff.emit. simpl.
    rewrite IH. simpl. by rewrite <- app_assoc.
Qed.

(** The requests are embed calls: none of them is the callback. *)
Lemma confirmed_requests sel d r : confirmed (map fst (requests sel d r)) = [].
Proof.
  unfold requests.
  destruct (nonEmpty _ || nonEmpty _); destruct (nonEmpty (idsOfType type_repo _)); reflexivity.
Qed.

Lemma confirmed_app cs1 cs2 : confirmed (cs1 ++ cs2) = confirmed cs1 ++ confirmed cs2.
Proof. unfold confirmed. apply omap_app. Qed.

(** What [handleConfirm] does once the replies have arrived. *)
Lemma handleConfirm_run s d r all :
  mergedOutcomes s d r = Some all →
  Eff.run (handleConfirm d r) s =
  let cs := map fst (requests (selectedItems s) d r) in
  let s1 := setEmbedStatuses (statusMap all) (setError None (setEmbedding true s)) in
  if (0 <? length (failuresOf all))%nat
     && (length (failuresOf all) =? length all)%nat
  then (setEmbedding false
          (setEmbedding false (setError (Some "All items failed to embed") s1)), cs)
  else (setEmbedding false s1, cs ++ [onConfirm (successIdsOf all)]).
Proof.
  unfold mergedOutcomes, handleConfirm, Eff.run. simpl.
  destruct (JsMap.size (selectedItems s) =? 0)%nat; [discriminate|].
  destruct (promiseAll _) as [res|] eqn:Hall; [|discriminate].
  simpl. intros [= <-].
  unfold handleConfirm_try, mbind, eff_bind, Eff.bind, Eff.finally, Eff.try_catch,
    Eff.modify. simpl.
  rewrite emit_all_run. simpl. rewrite Hall. simpl.
  destruct ((0 <? _)%nat && _); reflexivity.
Qed.

Lemma hasStatus_true st o :
  hasStatus st o = true <-> EmbedStatusItem.status o = st.
Proof. unfold hasStatus, JsString.eqb. apply String.eqb_eq. Qed.

Lemma failuresOf_all all :
  Forall (fun o => EmbedStatusItem.status o = "failed") all → failuresOf all = all.
Proof.
  unfold failuresOf. induction 1 as [|o all Ho Hall IH]; [done|].
  rewrite filter_cons_True by by apply hasStatus_true.
  by rewrite IH.
Qed.

Lemma failuresOf_none all :
  Forall (fun o => EmbedStatusItem.status o ≠ "failed") all → failuresOf all = [].
Proof.
  unfold failuresOf. induction 1 as [|o all Ho Hall IH]; [done|].
  rewrite filter_cons_False; [done|].
  by rewrite hasStatus_true.
Qed.

Lemma successIdsOf_none all :
  Forall (fun o => EmbedStatusItem.status o ≠ "completed") all → successIdsOf all = [].
Proof.
  unfold successIdsOf. induction 1 as [|o all Ho Hall IH]; [done|].
  rewrite filter_cons_False; [done|].
  by rewrite hasStatus_true.
Qed.

(** One completed outcome rules out the total failure. *)
Lemma completed_not_total_failure all :
  (∃ o, o ∈ all ∧ EmbedStatusItem.status o = "completed") →
  ((0 <? length (failuresOf all))%nat
   && (length (failuresOf all) =? length all)%nat) = false.
Proof.
  intros (o & Hin & Hst).
  assert (length (failuresOf all) < length all) as Hlt.
  { unfold failuresOf. apply (length_filter_lt _ _ o); [done|].
    rewrite hasStatus_true, Hst. discriminate. }
  apply andb_false_iff. right. apply Nat.eqb_neq. lia.
Qed.

(** C2: when the merged outcomes are non-empty and all failed, the single
    error "All items failed to embed" is set, [onConfirm] is not invoked
    (no ready ids are handed back), the embedding flag is cleared and the
    selection is kept for a retry. *)
Theorem all_failed_is_aggregate_error s d r all :
  mergedOutcomes s d r = Some all →
  all ≠ [] →
  Forall (fun o => EmbedStatusItem.status o = "failed") all →
  error (Eff.run (handleConfirm d r) s).1 = Some "All items failed to embed"
  ∧ embedding (Eff.run (handleConfirm d r) s).1 = false
  ∧ confirmed (Eff.run (handleConfirm d r) s).2 = []
  ∧ selectedItems (Eff.run (handleConfirm d r) s).1 = selectedItems s.
Proof.
  intros Hm Hne Hall. rewrite (handleConfirm_run _ _ _ _ Hm). cbv zeta.
  rewrite (failuresOf_all _ Hall), Nat.eqb_refl.
  destruct all as [|o all']; [done|]. simpl.
  repeat split. apply confirmed_requests.
Qed.

Lemma all_failed_is_aggregate_error_witness :
  error (Eff.run (handleConfirm
                    (Sample.reply [Sample.outcome "d1" "failed";
                                   Sample.outcome "d2" "failed"]) None)
                 Sample.picker).1 = Some "All items failed to embed"
  ∧ embedding (Eff.run (handleConfirm
                    (Sample.reply [Sample.outcome "d1" "failed";
                                   Sample.outcome "d2" "failed"]) None)
                 Sample.picker).1 = false
  ∧ confirmed (Eff.run (handleConfirm
                    (Sample.reply [Sample.outcome "d1" "failed";
                                   Sample.outcome "d2" "failed"]) None)
                 Sample.picker).2 = []
  ∧ selectedItems (Eff.run (handleConfirm
                    (Sample.reply [Sample.outcome "d1" "failed";
                                   Sample.outcome "d2" "failed"]) None)
                 Sample.picker).1 = selectedItems Sample.picker.
Proof.
  apply (all_failed_is_aggregate_error Sample.picker _ None
           [Sample.outcome "d1" "failed"; Sample.outcome "d2" "failed"]).
  - reflexivity.
  - discriminate.
  - repeat constructor.
Defined.

(** C3: when at least one merged outcome is completed, no error is
    reported and [onConfirm] is invoked once, with the ids of exactly the
    completed outcomes, in the order of the replies: an id is handed back
    if and only if an outcome with that id is completed, and as many ids
    are handed back as there are completed outcomes. *)
Theorem completed_ids_are_handed_back s d r all :
  mergedOutcomes s d r = Some all →
  (∃ o, o ∈ all ∧ EmbedStatusItem.status o = "completed") →
  error (Eff.run (handleConfirm d r) s).1 = None
  ∧ embedding (Eff.run (handleConfirm d r) s).1 = false
  ∧ confirmed (Eff.run (handleConfirm d r) s).2 = [successIdsOf all]
  ∧ (∀ id, id ∈ successIdsOf all ↔
           ∃ o, o ∈ all ∧ EmbedStatusItem.document_id o = id
                ∧ EmbedStatusItem.status o = "completed")
  ∧ length (successIdsOf all)
    = length (filter (fun o => EmbedStatusItem.status o = "completed") all).
Proof.
  intros Hm Hex. rewrite (handleConfirm_run _ _ _ _ Hm). cbv zeta.
  rewrite (completed_not_total_failure _ Hex). simpl.
  split; [done|]. split; [done|]. split; [|split].
  - by rewrite confirmed_app, confirmed_requests.
  - intros id. unfold successIdsOf. rewrite list_elem_of_fmap. split.
    + intros (o & -> & Ho). apply list_elem_of_filter in Ho as [Hst Hin].
      exists o. by rewrite hasStatus_true in Hst.
    + intros (o & Hin & <- & Hst). exists o. split; [done|].
      apply list_elem_of_filter. by rewrite hasStatus_true.
  - unfold successIdsOf. rewrite length_map. clear.
    induction all as [|o all IH]; [done|].
    destruct (decide (EmbedStatusItem.status o = "completed")) as [Hc|Hc].
    + rewrite !filter_cons_True; [|done|by apply hasStatus_true]. simpl. by rewrite IH.
    + rewrite !filter_cons_False; [done|done|by rewrite hasStatus_true].
Qed.

Lemma completed_ids_are_handed_back_witness :
  confirmed (Eff.run (handleConfirm
                        (Sample.reply [Sample.outcome "d1" "completed";
                                       Sample.outcome "d2" "failed"]) None)
                     Sample.picker).2 = [["d1"]]
  ∧ error (Eff.run (handleConfirm
                        (Sample.reply [Sample.outcome "d1" "completed";
                                       Sample.outcome "d2" "failed"]) None)
                     Sample.picker).1 = None.
Proof.
  pose proof (completed_ids_are_handed_back Sample.picker
                (Sample.reply [Sample.outcome "d1" "completed";
                               Sample.outcome "d2" "failed"]) None
                [Sample.outcome "d1" "completed"; Sample.outcome "d2" "failed"]
                eq_refl
                (ex_intro _ (Sample.outcome "d1" "completed")
                   (conj (list_elem_of_here _ _) eq_refl))) as (He & _ & Hc & _).
  split; [exact Hc|exact He].
Defined.

End SubmitFacts.

(** ** The conversation controller *)

Section ControllerFacts.
Import ChatPage Controller.

(** Unfold the handler combinators. *)
Ltac eff_unfold :=
  unfold Eff.run, mbind, mret, eff_bind, eff_ret, Eff.bind, Eff.ret,
    Eff.try_catch, Eff.finally, Eff.modify, Eff.await, Eff.emit, Eff.throw;
  simpl.







(** The guard reads the controller's mode, which [handleModeToggle] has
    already set to documents when the picker opens: after the switch from
    a global chat bound to c1, the confirmation creates nothing and
    attaches the ready ids to c1. *)
Lemma confirm_after_toggle_attaches_to_bound_conversation :
  needsConversation (handleModeToggle Sample.activeGlobal) = false
  ∧ (Eff.run (handleDocumentsConfirmed ["d1"] Sample.confirmReplies)
             (handleModeToggle Sample.activeGlobal)).2
    = [setConversationDocuments "c1" ["d1"]].
Proof. split; reflexivity. Qed.


(** *** handleSend *)

Lemma withoutLast_snoc {A} (l : list A) (x : A) : withoutLast (l ++ [x]) = l.
Proof.
  unfold withoutLast. rewrite length_app. simpl.
  replace (length l + 1 - 1) with (length l) by lia.
  by rewrite take_app_length.
Qed.

(** A send that is refused changes nothing and calls nothing. *)
Lemma handleSend_refused r s :
  handleSend_accepts s = None → Eff.run (handleSend r) s = (s, []).
Proof. intros H. unfold handleSend, Eff.run. simpl. by rewrite H. Qed.

Lemma loading_refuses s : loading s = true → handleSend_accepts s = None.
Proof. unfold handleSend_accepts. intros ->. by rewrite orb_true_r. Qed.

(** An accepted send is its synchronous prefix followed by the rest. *)
Lemma handleSend_accepted r s q :
  handleSend_accepts s = Some q →
  Eff.run (handleSend r) s
  = Eff.run (handleSend_async s q r) (handleSend_sync q s).
Proof. intros H. unfold handleSend, Eff.run. simpl. rewrite H. reflexivity. Qed.


(** Which replies make the [try] block throw; the state it runs on plays
    no part. *)
Lemma handleSend_try_throws_cases s q r cur :
  Eff.throws (handleSend_try s q r) cur =
  if JsString.truthy_opt (activeConversationId s) then
    bool_decide (sendMessage r = None)
  else
    bool_decide (sendCreate r = None)
    || (Mode_eqb (activeMode s) documents
        && (0 <? length (activeDocumentIds s))%nat
        && bool_decide (sendAttach r = None))
    || bool_decide (sendMessage r = None).
Proof.
  unfold Eff.throws, handleSend_try, loadConversations.
  unfold mbind, mret, eff_bind, eff_ret, Eff.bind, Eff.ret,
    Eff.try_catch, Eff.modify, Eff.await.
  destruct (JsString.truthy_opt (activeConversationId s)); simpl.
  - destruct (sendMessage r); simpl; [|done]. by destruct (sendList r).
  - destruct (sendCreate r) as [conv|]; simpl; [|done].
    destruct (Mode_eqb (activeMode s) documents
              && (0 <? length (activeDocumentIds s))%nat); simpl.
    + destruct (sendAttach r); simpl; [|done].
      destruct (sendMessage r); simpl; [|done]. by destruct (sendList r).
    + destruct (sendMessage r); simpl; [|done]. by destruct (sendList r).
Qed.

Lemma sendFails_cases s q r :
  sendFails s q r =
  if JsString.truthy_opt (activeConversationId s) then
    bool_decide (sendMessage r = None)
  else
    bool_decide (sendCreate r = None)
    || (Mode_eqb (activeMode s) documents
        && (0 <? length (activeDocumentIds s))%nat
        && bool_decide (sendAttach r = None))
    || bool_decide (sendMessage r = None).
Proof. apply handleSend_try_throws_cases. Qed.


(** A send that succeeds replaces the optimistic message by the reply. *)
Lemma handleSend_success r s q data :
  handleSend_accepts s = Some q →
  sendFails s q r = false →
  sendMessage r = Some data →
  messages (Eff.run (handleSend r) s).1 = messages s ++ map copyMessage data
  ∧ loading (Eff.run (handleSend r) s).1 = false.
Proof.
  intros Hacc Hok Hdata. rewrite (handleSend_accepted _ _ _ Hacc).
  revert Hok. rewrite sendFails_cases.
  unfold handleSend_async, handleSend_try, loadConversations. eff_unfold.
  rewrite Hdata.
  destruct (JsString.truthy_opt (activeConversationId s)); simpl.
  - intros _. destruct (sendList r); simpl; by rewrite withoutLast_snoc.
  - destruct (sendCreate r) as [conv|]; simpl; [|done].
    destruct (Mode_eqb (activeMode s) documents
              && (0 <? length (activeDocumentIds s))%nat); simpl.
    + destruct (sendAttach r); simpl; [|done].
      intros _. destruct (sendList r); simpl; by rewrite withoutLast_snoc.
    + intros _. destruct (sendList r); simpl; by rewrite withoutLast_snoc.
Qed.



(** *** One send at a time *)

(** No handler but [handleSend] writes the loading flag. *)
Lemma loading_handleSelectConversation id reply s :
  loading (Eff.run (handleSelectConversation id reply) s).1 = loading s.
Proof. unfold handleSelectConversation. eff_unfold. by destruct reply. Qed.

Lemma loading_handleDeleteConversation id reply s :
  loading (Eff.run (handleDeleteConversation id reply) s).1 = loading s.
Proof.
  unfold handleDeleteConversation. eff_unfold.
  destruct reply; simpl; [|done]. by case_bool_decide.
Qed.

Lemma loading_handleDocumentsConfirmed docIds r s :
  loading (Eff.run (handleDocumentsConfirmed docIds r) s).1 = loading s.
Proof.
  unfold handleDocumentsConfirmed, loadConversations. eff_unfold.
  destruct docIds; simpl; [done|].
  destruct (needsConversation s); simpl.
  - destruct (confirmCreate r); simpl; [|done].
    by destruct (confirmList r), (confirmAttach r).
  - by destruct (confirmAttach r).
Qed.

Lemma loading_handleContextModeToggle mode reply s :
  loading (Eff.run (handleContextModeToggle mode reply) s).1 = loading s.
Proof.
  unfold handleContextModeToggle. eff_unfold.
  destruct (JsString.truthy_opt (activeConversationId s)); simpl; [|done].
  by destruct reply.
Qed.

Lemma loading_loadConversations reply s :
  loading (Eff.run (loadConversations reply) s).1 = loading s.
Proof. unfold loadConversations. eff_unfold. by destruct reply. Qed.

Lemma loading_handleModeToggle s : loading (handleModeToggle s) = loading s.
Proof. unfold handleModeToggle. by destruct (Mode_eqb _ _). Qed.

Lemma loading_pickerOnClose s : loading (pickerOnClose s) = loading s.
Proof. unfold pickerOnClose. by destruct (_ =? _)%nat. Qed.

(** The rest of a send always ends with the loading flag cleared. *)
Lemma loading_handleSend_async c q r s :
  loading (Eff.run (handleSend_async c q r) s).1 = false.
Proof.
  unfold handleSend_async, Eff.run, Eff.finally.
  by destruct (Eff.try_catch _ _ _) as [u w].
Qed.

Lemma serialized_perform m sys :
  (∀ s, loading (Eff.run m s).1 = loading s) →
  serialized sys → serialized (perform m sys).
Proof.
  unfold serialized, perform. intros Hm Hinv. specialize (Hm (chat sys)).
  destruct (Eff.run m (chat sys)) as [s cs]. simpl in *. by rewrite Hm.
Qed.

Lemma serialized_step sys e : serialized sys → serialized (step sys e).
Proof.
  intros Hinv.
  destruct e; unfold step;
    try (apply serialized_perform; [intros s0|exact Hinv]).
  - done.
  - (* EvSend *)
    unfold serialized in *.
    destruct Hinv as [[Hout Hload]|(p & Hout & Hload)].
    + destruct (handleSend_accepts (chat sys)) as [q|]; simpl.
      * right. rewrite Hout. by eexists.
      * by left.
    + rewrite (loading_refuses _ Hload). right. by exists p.
  - (* EvSettle *)
    unfold serialized in *.
    destruct Hinv as [[Hout Hload]|(p & Hout & Hload)]; rewrite Hout.
    + by left.
    + pose proof (loading_handleSend_async (closure p) (question p) r (chat sys)) as H.
      destruct (Eff.run _ (chat sys)). by left.
  - done.
  - apply loading_handleSelectConversation.
  - apply loading_handleDeleteConversation.
  - apply loading_handleModeToggle.
  - apply loading_handleDocumentsConfirmed.
  - apply loading_handleContextModeToggle.
  - done.
  - apply loading_pickerOnClose.
  - apply loading_loadConversations.
Qed.

Lemma serialized_steps evs : serialized (steps evs initialSystem).
Proof.
  induction evs as [|e evs IH] using rev_ind.
  - by left.
  - unfold steps in *. rewrite foldl_app. simpl. by apply serialized_step.
Qed.

(** C7: in every state the controller reaches from its initial state, by
    any interleaving of handler invocations and settling sends, at most
    one send is outstanding, and one is outstanding exactly when the
    loading flag is set.  While the flag is set, a send is refused: the
    state is unchanged (no optimistic message), no call is issued, and
    nothing is added to the outstanding sends. *)
Theorem sends_are_serialized evs :
  (length (outstanding (steps evs initialSystem)) ≤ 1)%nat
  ∧ (loading (chat (steps evs initialSystem)) = true
     ↔ outstanding (steps evs initialSystem) ≠ [])
  ∧ (∀ s r, loading s = true → Eff.run (handleSend r) s = (s, []))
  ∧ (∀ sys, loading (chat sys) = true → step sys EvSend = sys).
Proof.
  split; [|split; [|split]].
  - destruct (serialized_steps evs) as [[-> _]|(p & -> & _)]; simpl; lia.
  - destruct (serialized_steps evs) as [[-> ->]|(p & -> & ->)]; split; done.
  - intros s r Hload. by apply handleSend_refused, loading_refuses.
  - intros sys Hload. simpl. by rewrite (loading_refuses _ Hload).
Qed.

(** C10: when the merged outcomes hold no failed and no completed item
    (every item still processing, say), [handleConfirm] reports no error
    and invokes [onConfirm] once with the empty list; the controller takes
    the empty list as a cancellation: it closes the picker, empties the
    attached ids and sets the mode to global, issuing no call. *)
Theorem unfinished_outcomes_bounce_to_global d r cr p c all :
  DocumentPickerModal.mergedOutcomes p d r = Some all →
  all ≠ [] →
  Forall (fun o => EmbedStatusItem.status o ≠ "failed"
                   ∧ EmbedStatusItem.status o ≠ "completed") all →
  DocumentPickerModal.error
    (Eff.run (DocumentPickerModal.handleConfirm d r) p).1 = None
  ∧ DocumentPickerModal.confirmed
      (Eff.run (DocumentPickerModal.handleConfirm d r) p).2 = [[]]
  ∧ submitAndConfirm d r cr p c
    = ((Eff.run (DocumentPickerModal.handleConfirm d r) p).1,
       setActiveMode global (setActiveDocumentIds [] (setPickerOpen false c)),
       [])
  ∧ activeMode (submitAndConfirm d r cr p c).1.2 = global
  ∧ pickerOpen (submitAndConfirm d r cr p c).1.2 = false.
Proof.
  intros Hm _ Hall.
  assert (DocumentPickerModal.failuresOf all = []) as Hf.
  { apply failuresOf_none. eapply Forall_impl; [exact Hall|]. by intros o [? ?]. }
  assert (DocumentPickerModal.successIdsOf all = []) as Hs.
  { apply successIdsOf_none. eapply Forall_impl; [exact Hall|]. by intros o [? ?]. }
  unfold submitAndConfirm.
  rewrite (handleConfirm_run _ _ _ _ Hm). cbv zeta. rewrite Hf, Hs. simpl.
  rewrite confirmed_app, confirmed_requests. simpl.
  repeat split.
Qed.

Lemma unfinished_outcomes_bounce_to_global_witness :
  DocumentPickerModal.confirmed
    (Eff.run (DocumentPickerModal.handleConfirm
                (Sample.reply [Sample.outcome "d1" "processing";
                               Sample.outcome "d2" "processing"]) None)
             Sample.picker).2 = [[]]
  ∧ activeMode
      (submitAndConfirm
         (Sample.reply [Sample.outcome "d1" "processing";
                        Sample.outcome "d2" "processing"]) None
         Sample.confirmReplies Sample.picker
         (handleModeToggle initialState)).1.2 = global.
Proof.
  pose proof (unfinished_outcomes_bounce_to_global
                (Sample.reply [Sample.outcome "d1" "processing";
                               Sample.outcome "d2" "processing"]) None
                Sample.confirmReplies Sample.picker
                (handleModeToggle initialState)
                [Sample.outcome "d1" "processing"; Sample.outcome "d2" "processing"]
                eq_refl) as H.
  destruct H as (_ & Hc & _ & Hm & _).
  - discriminate.
  - repeat constructor; discriminate.
  - split; [exact Hc|exact Hm].
Defined.

End ControllerFacts.

(** * Further properties of the picker *)

Section PickerExtras.
Import DocumentPickerModal Catalog.
Implicit Types (sel : JsMap.t SelectedItem.t) (lib : option LibraryResponse.t).

Lemma length_delete_present (k : string) sel :
  NoDup (JsMap.keys sel) → JsMap.has k sel = true →
  S (length (JsMap.delete k sel)) = length sel.
Proof.
  unfold JsMap.has. induction sel as [|[k' v'] sel IH]; simpl; [done|].
  rewrite NoDup_cons. intros [Hk Hnd].
  destruct (String.eqb k k') eqn:E.
  - intros _. apply String.eqb_eq in E. subst k'.
    rewrite delete_absent; [done|].
    unfold JsMap.has. destruct (JsMap.get k sel) eqn:G; [|done].
    exfalso. apply Hk. clear -G.
    induction sel as [|[k0 v0] sel IH]; simpl in *; [done|].
    destruct (String.eqb k k0) eqn:E0.
    + apply String.eqb_eq in E0. subst. apply list_elem_of_here.
    + apply list_elem_of_further. by apply IH.
  - intros H. simpl. f_equal. by apply IH.
Qed.

(** X1: [removeItem] removes the entry of the key and nothing else: the
    key is no longer selected, every other key keeps its entry, removing a
    key that is not selected changes nothing, and removing a selected key
    makes the selection one entry smaller. *)
Theorem removeItem_removes_only_the_key (key : string) sel :
  JsMap.has key (removeItem key sel) = false
  ∧ (∀ k, k ≠ key → JsMap.get k (removeItem key sel) = JsMap.get k sel)
  ∧ (JsMap.has key sel = false → removeItem key sel = sel)
  ∧ (NoDup (JsMap.keys sel) → JsMap.has key sel = true →
       S (JsMap.size (removeItem key sel)) = JsMap.size sel).
Proof.
  unfold removeItem. split; [apply has_delete_eq|]. split; [|split].
  - intros k Hk. apply get_delete_ne. congruence.
  - apply delete_absent.
  - apply length_delete_present.
Qed.

Lemma find_app_first {A} (p : A → bool) (l1 l2 : list A) :
  List.find p (l1 ++ l2)
  = match List.find p l1 with Some x => Some x | None => List.find p l2 end.
Proof.
  induction l1 as [|x l1 IH]; simpl; [done|]. by destruct (p x).
Qed.

Lemma findDocFolder_allDocs id :
  ∀ f, findDocFolder id f
       = List.find (fun d => JsString.eqb (LibraryDocument.id d) id) (allDocs f).
Proof.
  fix IH 1. intros [fid nm par docs paps reps ch]. simpl.
  rewrite find_app_first.
  destruct (List.find _ docs); [done|].
  revert ch. fix IHch 1. intros [|c cs]; simpl; [done|].
  rewrite find_app_first, <- IH.
  destruct (findDocFolder id c); [done|]. apply IHch.
Qed.

Lemma findDoc_flat_map id folders :
  findDoc id folders
  = List.find (fun d => JsString.eqb (LibraryDocument.id d) id)
              (flat_map allDocs folders).
Proof.
  induction folders as [|f fs IH]; simpl; [done|].
  rewrite find_app_first, <- findDocFolder_allDocs.
  by destruct (findDocFolder id f).
Qed.

(** X2: [findDoc] returns the first document with the given id in
    depth-first order (a folder's own documents before its children's).
    What it returns has that id and is in the tree; it returns nothing
    exactly when no document of the tree has the id. *)
Theorem findDoc_is_first_match_depth_first id folders :
  findDoc id folders
  = List.find (fun d => JsString.eqb (LibraryDocument.id d) id)
              (flat_map allDocs folders)
  ∧ (∀ d, findDoc id folders = Some d →
       LibraryDocument.id d = id ∧ d ∈ flat_map allDocs folders)
  ∧ (findDoc id folders = None ↔
       ∀ d, d ∈ flat_map allDocs folders → LibraryDocument.id d ≠ id).
Proof.
  rewrite findDoc_flat_map. split; [done|]. split.
  - intros d Hd. apply find_some in Hd as [Hin Heq].
    split; [by apply String.eqb_eq|by apply list_elem_of_In].
  - split.
    + intros Hnone d Hin Hid. apply list_elem_of_In in Hin.
      pose proof (find_none _ _ Hnone d Hin) as Hf. simpl in Hf.
      unfold JsString.eqb in Hf. rewrite Hid, String.eqb_refl in Hf. discriminate.
    + intros Hall. destruct (List.find _ _) as [d|] eqn:Hf; [|done].
      apply find_some in Hf as [Hin Heq]. exfalso.
      apply (Hall d); [by apply list_elem_of_In|by apply String.eqb_eq].
Qed.

(** X3: checking a document that is not selected inserts a document entry
    under its key.  Its label is the catalog's original file name when the
    loaded library has a document of that id with a non-empty name, and
    the raw id otherwise: with no library loaded, or no such document in
    its folders, the label is the id and the content type is absent. *)
Theorem toggleDoc_labels_from_catalog_or_id lib id sel :
  JsMap.has (docKey id) sel = false →
  ∃ item,
    JsMap.get (docKey id) (toggleDoc lib id sel) = Some item
    ∧ toggleDoc lib id sel = sel ++ [(docKey id, item)]
    ∧ SelectedItem.type item = type_document
    ∧ SelectedItem.id item = id
    ∧ ((∀ d, d ∈ searchable lib → LibraryDocument.id d ≠ id) →
         SelectedItem.label item = id ∧ SelectedItem.contentType item = None)
    ∧ (∀ d, List.find (fun d => JsString.eqb (LibraryDocument.id d) id)
                      (searchable lib) = Some d →
         SelectedItem.contentType item = Some (LibraryDocument.content_type d)
         ∧ SelectedItem.label item
           = if JsString.truthy (LibraryDocument.original_filename d)
             then LibraryDocument.original_filename d else id).
Proof.
  intros Hhas. unfold toggleDoc. rewrite Hhas.
  assert (match lib with
          | Some l => findDoc id (LibraryResponse.folders l)
          | None => None
          end
          = List.find (fun d => JsString.eqb (LibraryDocument.id d) id)
                      (searchable lib)) as ->.
  { destruct lib; simpl; [apply findDoc_flat_map|done]. }
  eexists. split; [apply get_set_eq|]. split; [by apply set_absent|].
  split; [done|]. split; [done|]. simpl. split.
  - intros Hall. destruct (List.find _ _) as [d|] eqn:Hf; [|done].
    apply find_some in Hf as [Hin Heq]. exfalso.
    apply (Hall d); [by apply list_elem_of_In|by apply String.eqb_eq].
  - intros d ->. simpl. split; [done|]. unfold JsString.or_else. simpl.
    by destruct (JsString.truthy _).
Qed.

Lemma toggleDoc_labels_from_catalog_or_id_witness :
  ∃ item,
    JsMap.get (docKey "d9") (toggleDoc Sample.lib "d9" (initialSelection ["d1"]))
    = Some item
    ∧ SelectedItem.label item = "d9"
    ∧ SelectedItem.contentType item = None.
Proof.
  destruct (toggleDoc_labels_from_catalog_or_id Sample.lib "d9"
              (initialSelection ["d1"]) eq_refl)
    as (item & Hget & _ & _ & _ & Hmiss & _).
  exists item. split; [exact Hget|]. apply Hmiss.
  intros d Hd Hid. simpl in Hd.
  apply list_elem_of_singleton in Hd. subst d. discriminate Hid.
Defined.

(** *** The restored selection *)

Lemma has_app (k : string) (m1 m2 : JsMap.t SelectedItem.t) :
  JsMap.has k (m1 ++ m2) = JsMap.has k m1 || JsMap.has k m2.
Proof.
  unfold JsMap.has. induction m1 as [|[k' v'] m1 IH]; simpl; [done|].
  by destruct (String.eqb k k').
Qed.

Lemma has_key_elem (k : string) (m : JsMap.t SelectedItem.t) :
  JsMap.has k m = true ↔ k ∈ JsMap.keys m.
Proof.
  unfold JsMap.has. induction m as [|[k' v'] m IH]; simpl.
  - split; [done|]. by intros ?%elem_of_nil.
  - rewrite elem_of_cons. destruct (String.eqb k k') eqn:E.
    + apply String.eqb_eq in E. split; [by left|done].
    + apply String.eqb_neq in E. rewrite IH. split; [by right|]. by intros [?|?].
Qed.

(** The entry restored for an attached document id. *)
Lemma initialSelection_fold (ids : list string) (acc : JsMap.t SelectedItem.t) :
  NoDup ids →
  (∀ id, id ∈ ids → JsMap.has (docKey id) acc = false) →
  foldl (fun initial id =>
           JsMap.set (docKey id)
             {| SelectedItem.type := type_document;
                SelectedItem.id := id;
                SelectedItem.label := id;
                SelectedItem.contentType := None;
                SelectedItem.paper := None;
                SelectedItem.repo := None |} initial) acc ids
  = acc ++ map (fun id =>
                  (docKey id,
                   {| SelectedItem.type := type_document;
                      SelectedItem.id := id;
                      SelectedItem.label := id;
                      SelectedItem.contentType := None;
                      SelectedItem.paper := None;
                      SelectedItem.repo := None |})) ids.
Proof.
  revert acc. induction ids as [|id ids IH]; intros acc Hnd Hacc; simpl.
  - by rewrite app_nil_r.
  - apply NoDup_cons in Hnd as [Hid Hnd].
    rewrite (set_absent _ _ _ (Hacc id (list_elem_of_here _ _))).
    rewrite IH; [by rewrite <- app_assoc|done|].
    intros id' Hin. rewrite has_app, (Hacc id' (list_elem_of_further _ _ _ Hin)).
    simpl. destruct (decide (id' = id)) as [->|Hne]; [done|].
    unfold JsMap.has. cbn [JsMap.get].
    assert (String.eqb (docKey id') (docKey id) = false) as ->; [|done].
    apply String.eqb_neq. by intros ?%docKey_inj.
Qed.

Lemma initialSelection_has (ids : list string) (acc : JsMap.t SelectedItem.t) k :
  JsMap.has k
    (foldl (fun initial id =>
              JsMap.set (docKey id)
                {| SelectedItem.type := type_document;
                   SelectedItem.id := id;
                   SelectedItem.label := id;
                   SelectedItem.contentType := None;
                   SelectedItem.paper := None;
                   SelectedItem.repo := None |} initial) acc ids) = true
  ↔ JsMap.has k acc = true ∨ ∃ id, id ∈ ids ∧ k = docKey id.
Proof.
  revert acc. induction ids as [|id ids IH]; intros acc; simpl.
  - split; [by left|]. intros [?|(id & Hin & _)]; [done|by apply elem_of_nil in Hin].
  - rewrite IH. split.
    + intros [Hset|(id' & Hin & ->)].
      * destruct (decide (k = docKey id)) as [->|Hne].
        -- right. exists id. split; [apply list_elem_of_here|done].
        -- left. unfold JsMap.has in *. by rewrite get_set_ne in Hset by congruence.
      * right. exists id'. split; [by apply list_elem_of_further|done].
    + intros [Hacc|(id' & Hin & ->)].
      * left. destruct (decide (k = docKey id)) as [->|Hne].
        -- apply has_set_eq.
        -- unfold JsMap.has in *. by rewrite get_set_ne by congruence.
      * apply elem_of_cons in Hin as [->|Hin].
        -- left. apply has_set_eq.
        -- right. by exists id'.
Qed.

(** X4: the selection restored when the picker opens holds exactly the
    document keys of the attached ids and no paper or repository.  When
    the attached ids are pairwise distinct, the document ids a submission
    would send are the attached ids, in the same order. *)
Theorem initialSelection_restores_attached_ids (ids : list string) :
  (∀ id, JsMap.has (docKey id) (initialSelection ids) = true ↔ id ∈ ids)
  ∧ (∀ pid, JsMap.has (paperKey pid) (initialSelection ids) = false)
  ∧ (∀ rid, JsMap.has (repoKey rid) (initialSelection ids) = false)
  ∧ (NoDup ids →
       idsOfType type_document (JsMap.values (initialSelection ids)) = ids
       ∧ idsOfType type_paper (JsMap.values (initialSelection ids)) = []
       ∧ idsOfType type_repo (JsMap.values (initialSelection ids)) = []
       ∧ JsMap.size (initialSelection ids) = length ids).
Proof.
  split; [|split; [|split]].
  - intros id. unfold initialSelection. rewrite initialSelection_has. split.
    + intros [H|(id' & Hin & Heq)]; [done|]. apply docKey_inj in Heq. by subst.
    + intros Hin. right. by exists id.
  - intros pid. destruct (JsMap.has _ _) eqn:E; [|done].
    apply initialSelection_has in E as [H|(id' & _ & Heq)]; [done|].
    symmetry in Heq. by apply docKey_not_paperKey in Heq.
  - intros rid. destruct (JsMap.has _ _) eqn:E; [|done].
    apply initialSelection_has in E as [H|(id' & _ & Heq)]; [done|].
    unfold repoKey, docKey in Heq. by simplify_eq/=.
  - intros Hnd. unfold initialSelection.
    rewrite (initialSelection_fold ids JsMap.empty Hnd); [|done]. simpl.
    unfold JsMap.values, JsMap.size, idsOfType. rewrite length_map.
    split; [|split; [|split]]; try done; clear; induction ids as [|id ids IH];
      simpl; try done.
    by rewrite IH.
Qed.

(** *** handleConfirm on every input *)

Lemma idsOfType_split (items : list SelectedItem.t) :
  idsOfType type_document items ++ idsOfType type_paper items
    ++ idsOfType type_repo items
  ≡ₚ map SelectedItem.id items.
Proof.
  unfold idsOfType. induction items as [|i items IH]; simpl; [done|].
  rewrite !filter_cons.
  destruct (SelectedItem.type i); simpl; repeat case_decide; try done; simpl.
  - by rewrite IH.
  - rewrite <- Permutation_middle. by rewrite IH.
  - rewrite app_assoc, <- Permutation_middle, <- app_assoc. by rewrite IH.
Qed.

(** X5: a submission sends every selected item exactly once.  The ids of
    the documents-and-papers request and of the repositories request are,
    together, the ids of the selected items; the first request is issued
    exactly when a document or a paper is selected, the second exactly
    when a repository is, and a non-empty selection issues at least one. *)
Theorem requests_partition_the_selection sel d r :
  idsOfType type_document (JsMap.values sel)
    ++ idsOfType type_paper (JsMap.values sel)
    ++ idsOfType type_repo (JsMap.values sel)
  ≡ₚ map SelectedItem.id (JsMap.values sel)
  ∧ map fst (requests sel d r)
    = (if nonEmpty (idsOfType type_document (JsMap.values sel))
          || nonEmpty (idsOfType type_paper (JsMap.values sel))
       then [embedDocuments (idsOfType type_document (JsMap.values sel))
                            (idsOfType type_paper (JsMap.values sel))]
       else [])
      ++ (if nonEmpty (idsOfType type_repo (JsMap.values sel))
          then [embedRepos (idsOfType type_repo (JsMap.values sel))]
          else [])
  ∧ (sel ≠ [] → requests sel d r ≠ []).
Proof.
  split; [apply idsOfType_split|]. split.
  - unfold requests. cbv zeta.
    by destruct (nonEmpty _ || nonEmpty _), (nonEmpty (idsOfType type_repo _)).
  - intros Hne Hreq.
    pose proof (idsOfType_split (JsMap.values sel)) as Hperm.
    apply Permutation_length in Hperm.
    rewrite !length_app, length_map in Hperm.
    unfold requests, nonEmpty in Hreq. cbv zeta in Hreq.
    destruct (idsOfType type_document (JsMap.values sel)) as [|? ?]; [|done].
    destruct (idsOfType type_paper (JsMap.values sel)) as [|? ?]; [|done].
    destruct (idsOfType type_repo (JsMap.values sel)) as [|? ?]; [|done].
    simpl in Hperm. unfold JsMap.values in Hperm. rewrite length_map in Hperm.
    by destruct sel.
Qed.

Lemma handleConfirm_rejected_run s d r :
  selectedItems s ≠ [] →
  mergedOutcomes s d r = None →
  Eff.run (handleConfirm d r) s
  = (setEmbedding false
       (setError (Some "Failed to embed documents")
          (setError None (setEmbedding true s))),
     map fst (requests (selectedItems s) d r)).
Proof.
  intros Hne. unfold mergedOutcomes, handleConfirm, Eff.run. simpl.
  destruct (selectedItems s) as [|e sel'] eqn:Hsel; [done|]. simpl.
  destruct (promiseAll _) as [res|] eqn:Hall; [discriminate|]. intros _.
  unfold handleConfirm_try, mbind, eff_bind, Eff.bind, Eff.finally,
    Eff.try_catch, Eff.modify, Eff.throw. simpl.
  rewrite emit_all_run. simpl. by rewrite Hall.
Qed.

(** X6: when a request of a non-empty submission is rejected, the error
    "Failed to embed documents" is set, [onConfirm] is not invoked, the
    embedding flag is cleared, and the selection and the last known
    statuses are kept. *)
Theorem rejected_submit_keeps_selection_and_statuses s d r :
  selectedItems s ≠ [] →
  mergedOutcomes s d r = None →
  error (Eff.run (handleConfirm d r) s).1 = Some "Failed to embed documents"
  ∧ embedding (Eff.run (handleConfirm d r) s).1 = false
  ∧ confirmed (Eff.run (handleConfirm d r) s).2 = []
  ∧ (Eff.run (handleConfirm d r) s).2 = map fst (requests (selectedItems s) d r)
  ∧ selectedItems (Eff.run (handleConfirm d r) s).1 = selectedItems s
  ∧ embedStatuses (Eff.run (handleConfirm d r) s).1 = embedStatuses s.
Proof.
  intros Hne Hm. rewrite (handleConfirm_rejected_run _ _ _ Hne Hm).
  simpl. repeat split. apply confirmed_requests.
Qed.

Lemma rejected_submit_keeps_selection_and_statuses_witness :
  error (Eff.run (handleConfirm None None) Sample.picker).1
  = Some "Failed to embed documents"
  ∧ confirmed (Eff.run (handleConfirm None None) Sample.picker).2 = [].
Proof.
  pose proof (rejected_submit_keeps_selection_and_statuses Sample.picker None None)
    as H.
  destruct H as (He & _ & Hc & _); [discriminate|reflexivity|].
  split; [exact He|exact Hc].
Defined.

(** X7: whatever the replies, [handleConfirm] keeps the selection and the
    library, invokes [onConfirm] at most once, and, when the selection is
    not empty, ends with the embedding flag cleared; with an empty
    selection it does nothing at all. *)
Theorem handleConfirm_always_settles s d r :
  selectedItems (Eff.run (handleConfirm d r) s).1 = selectedItems s
  ∧ library (Eff.run (handleConfirm d r) s).1 = library s
  ∧ (length (confirmed (Eff.run (handleConfirm d r) s).2) ≤ 1)%nat
  ∧ (selectedItems s ≠ [] → embedding (Eff.run (handleConfirm d r) s).1 = false)
  ∧ (selectedItems s = [] → Eff.run (handleConfirm d r) s = (s, [])).
Proof.
  destruct (selectedItems s) as [|e sel'] eqn:Hsel.
  - assert (Eff.run (handleConfirm d r) s = (s, [])) as ->.
    { unfold handleConfirm, Eff.run. simpl. by rewrite Hsel. }
    simpl. rewrite Hsel. repeat split; try done. lia.
  - destruct (mergedOutcomes s d r) as [all|] eqn:Hm.
    + rewrite (handleConfirm_run _ _ _ _ Hm). cbv zeta.
      destruct ((0 <? _)%nat && _); simpl; rewrite ?confirmed_app, ?confirmed_requests;
        repeat split; simpl; try done; lia.
    + rewrite (handleConfirm_rejected_run s d r); [|by rewrite Hsel|done].
      simpl. rewrite confirmed_requests. repeat split; simpl; try done; lia.
Qed.

(** *** The status map *)

Lemma statusMap_snoc rs o :
  statusMap (rs ++ [o]) = <[EmbedStatusItem.document_id o := o]> (statusMap rs).
Proof. unfold statusMap. by rewrite foldl_app. Qed.

Lemma statusMap_last rs id :
  statusMap rs !! id
  = last (filter (fun o => EmbedStatusItem.document_id o = id) rs).
Proof.
  induction rs as [|o rs IH] using rev_ind; [done|].
  rewrite statusMap_snoc, filter_app.
  destruct (decide (EmbedStatusItem.document_id o = id)) as [Heq|Hne].
  - rewrite Heq, lookup_insert_eq.
    rewrite (filter_cons_True _ o) by done.
    by rewrite filter_nil, last_snoc.
  - rewrite lookup_insert_ne by done.
    rewrite (filter_cons_False _ o) by done.
    by rewrite filter_nil, app_nil_r.
Qed.

Lemma statusMap_unmentioned rs id :
  (∀ o, o ∈ rs → EmbedStatusItem.document_id o ≠ id) → statusMap rs !! id = None.
Proof.
  intros Hall. rewrite statusMap_last, last_None.
  destruct (filter (fun o => EmbedStatusItem.document_id o = id) rs)
    as [|o l] eqn:Hf; [done|].
  assert (o ∈ filter (fun o => EmbedStatusItem.document_id o = id) rs) as Hin
    by (rewrite Hf; apply list_elem_of_here).
  apply list_elem_of_filter in Hin as [Hid Hin]. by destruct (Hall o Hin).
Qed.

(** X8: the status map answers, for an id, with the last outcome of the
    reply list that carries this id (a later entry overwrites an earlier
    one), and with nothing when no outcome carries it. *)
Theorem statusMap_keeps_last_outcome_per_id rs id :
  statusMap rs !! id
  = last (filter (fun o => EmbedStatusItem.document_id o = id) rs)
  ∧ (∀ o, statusMap rs !! id = Some o →
       o ∈ rs ∧ EmbedStatusItem.document_id o = id)
  ∧ (statusMap rs !! id = None ↔
       ∀ o, o ∈ rs → EmbedStatusItem.document_id o ≠ id).
Proof.
  split; [apply statusMap_last|]. split.
  - rewrite statusMap_last. intros o Ho. apply last_Some in Ho as [l' Hl'].
    assert (o ∈ filter (fun o => EmbedStatusItem.document_id o = id) rs) as Hin.
    { rewrite Hl'. apply elem_of_app. right. apply list_elem_of_here. }
    apply list_elem_of_filter in Hin as [? ?]. done.
  - split; [|apply statusMap_unmentioned].
    rewrite statusMap_last, last_None.
    intros Hnil o Hin Hid.
    assert (o ∈ filter (fun o => EmbedStatusItem.document_id o = id) rs) as Hf
      by by apply list_elem_of_filter.
    rewrite Hnil in Hf. by apply elem_of_nil in Hf.
Qed.

(** *** The status query and the library fetch *)

(** X9: the status query asks for the selected document entries only
    (never for papers or repositories), and not at all when none is
    selected.  A rejected query leaves the whole state as it was, last
    known statuses included; a reply replaces the status map wholesale,
    so an id the reply does not mention has no status afterwards. *)
Theorem loadStatus_keeps_statuses_on_failure reply s :
  (Eff.run (loadStatus reply) s).2
  = (if (length (idsOfType type_document (JsMap.values (selectedItems s))) =? 0)%nat
     then []
     else [fetchEmbedStatus (idsOfType type_document (JsMap.values (selectedItems s)))])
  ∧ (Eff.run (loadStatus None) s).1 = s
  ∧ (idsOfType type_document (JsMap.values (selectedItems s)) = [] →
       (Eff.run (loadStatus reply) s).1 = s)
  ∧ (∀ data, reply = Some data →
       idsOfType type_document (JsMap.values (selectedItems s)) ≠ [] →
       (Eff.run (loadStatus reply) s).1 = setEmbedStatuses (statusMap (results data)) s
       ∧ ∀ id, (∀ o, o ∈ results data → EmbedStatusItem.document_id o ≠ id) →
               embedStatuses (Eff.run (loadStatus reply) s).1 !! id = None).
Proof.
  unfold loadStatus, Eff.run, Eff.try_catch, mbind, eff_bind, Eff.bind,
    Eff.await, Eff.modify, Eff.ret. simpl.
  destruct (idsOfType type_document (JsMap.values (selectedItems s))) as [|i ids] eqn:Hids;
    simpl.
  - repeat split; try done.
  - split; [by destruct reply|]. split; [done|]. split; [done|].
    intros data -> _. simpl. split; [done|].
    intros id Hid. by apply statusMap_unmentioned.
Qed.

Lemma loadStatus_keeps_statuses_on_failure_witness :
  (Eff.run (loadStatus (Sample.reply [Sample.outcome "d1" "completed"])) Sample.picker).1
  = setEmbedStatuses (statusMap [Sample.outcome "d1" "completed"]) Sample.picker
  ∧ (Eff.run (loadStatus None) Sample.picker).1 = Sample.picker.
Proof.
  pose proof (loadStatus_keeps_statuses_on_failure
                (Sample.reply [Sample.outcome "d1" "completed"]) Sample.picker)
    as (_ & _ & _ & Hok).
  pose proof (loadStatus_keeps_statuses_on_failure None Sample.picker)
    as (_ & Hfail & _).
  split; [|exact Hfail].
  destruct (Hok _ eq_refl) as [Hst _]; [discriminate|exact Hst].
Defined.

(** X10: [loadLibrary] always ends with the loading flag cleared and never
    touches the selection.  A rejected fetch sets the error "Failed to
    load library" and keeps the library loaded before; a reply replaces
    the library and leaves the error as it was. *)
Theorem loadLibrary_reports_failure_and_clears_loading reply s :
  loading (Eff.run (loadLibrary reply) s).1 = false
  ∧ selectedItems (Eff.run (loadLibrary reply) s).1 = selectedItems s
  ∧ (Eff.run (loadLibrary reply) s).2 = [fetchDocumentLibrary]
  ∧ (reply = None →
       error (Eff.run (loadLibrary reply) s).1 = Some "Failed to load library"
       ∧ library (Eff.run (loadLibrary reply) s).1 = library s)
  ∧ (∀ data, reply = Some data →
       library (Eff.run (loadLibrary reply) s).1 = Some data
       ∧ error (Eff.run (loadLibrary reply) s).1 = error s).
Proof.
  unfold loadLibrary, Eff.run, Eff.finally, Eff.try_catch, mbind, eff_bind,
    Eff.bind, Eff.await, Eff.modify. simpl.
  destruct reply as [data|]; simpl; repeat split; try done;
    by intros data' [= <-].
Qed.

End PickerExtras.

(** * Properties of the file preview helpers *)

Section ViewerExtras.
Import FileViewerModal.

Lemma append_cons_str (x : ascii) (a b : string) :
  String x a +:+ b = String x (a +:+ b).
Proof. reflexivity. Qed.

Lemma append_nil_l_str (b : string) : "" +:+ b = b.
Proof. reflexivity. Qed.

Lemma append_assoc_str (a b c : string) : (a +:+ b) +:+ c = a +:+ (b +:+ c).
Proof.
  induction a as [|x a IH]; [done|]. by rewrite !append_cons_str, IH.
Qed.

Lemma append_nil_r_str (a : string) : a +:+ "" = a.
Proof.
  induction a as [|x a IH]; [done|]. by rewrite append_cons_str, IH.
Qed.

Lemma split_nonempty sep s : split sep s ≠ [].
Proof.
  destruct s as [|c r]; simpl; [done|].
  destruct (Ascii.eqb c sep); [done|]. by destruct (split sep r).
Qed.







(** *** parseCsv *)




(** Outside quotes, on text without a double quote, the loop splits at
    the commas. *)
Lemma parseLine_unquoted line :
  Forall (fun c => c ≠ DQ) (list_ascii_of_string line) →
  ∀ cur cells,
    parseLine line false cur cells
    = cells ++ match split "," line with
               | h :: t => (cur +:+ h) :: t
               | [] => [cur]
               end.
Proof.
  induction line as [|ch rest IH]; simpl; intros Hq cur cells.
  - by rewrite append_nil_r_str.
  - apply Forall_cons in Hq as [Hch Hrest].
    apply Ascii.eqb_neq in Hch. rewrite Hch.
    destruct (Ascii.eqb ch ",") eqn:Hcomma.
    + rewrite (IH Hrest). rewrite append_nil_r_str.
      pose proof (split_nonempty "," rest).
      destruct (split "," rest) as [|h t]; [done|].
      simpl. by rewrite <- app_assoc.
    + rewrite (IH Hrest).
      pose proof (split_nonempty "," rest).
      destruct (split "," rest) as [|h t]; [done|].
      by rewrite append_assoc_str.
Qed.

(** X13: a line without any double quote is split at its commas: the
    cells are the pieces between the commas, empty pieces included. *)
Theorem parseLine_unquoted_splits_at_commas line :
  Forall (fun c => c ≠ DQ) (list_ascii_of_string line) →
  parseLine line false EmptyString [] = split "," line
  ∧ length (parseLine line false EmptyString [])
    = S (length (filter (fun c => c = ","%char) (list_ascii_of_string line))).
Proof.
  intros Hq. rewrite (parseLine_unquoted line Hq). simpl.
  pose proof (split_nonempty "," line) as Hne.
  split; [by destruct (split "," line)|].
  assert (length (split "," line)
          = S (length (filter (fun c => c = ","%char) (list_ascii_of_string line)))) as Hlen.
  { clear. induction line as [|c r IH]; simpl; [done|].
    rewrite filter_cons.
    destruct (Ascii.eqb c ",") eqn:E.
    - apply Ascii.eqb_eq in E. rewrite decide_True by done. simpl. by rewrite IH.
    - apply Ascii.eqb_neq in E. rewrite decide_False by done.
      pose proof (split_nonempty "," r). destruct (split "," r); [done|].
      simpl in *. done. }
  rewrite <- Hlen. by destruct (split "," line).
Qed.

Lemma parseLine_unquoted_splits_at_commas_witness :
  parseLine "a,,b c," false EmptyString [] = ["a"; ""; "b c"; ""].
Proof.
  refine (eq_trans
            (proj1 (parseLine_unquoted_splits_at_commas "a,,b c," _)) eq_refl).
  repeat constructor; vm_compute; discriminate.
Defined.

(** Inside quotes, text without a double quote is copied to the cell in
    progress, commas included. *)
Lemma parseLine_quoted_run f :
  Forall (fun c => c ≠ DQ) (list_ascii_of_string f) →
  ∀ tail cur cells,
    parseLine (f +:+ tail) true cur cells
    = parseLine tail true (cur +:+ f) cells.
Proof.
  induction f as [|ch f IH]; intros Hq tail cur cells.
  - by rewrite append_nil_l_str, append_nil_r_str.
  - apply Forall_cons in Hq as [Hch Hf].
    apply Ascii.eqb_neq in Hch.
    rewrite append_cons_str. cbn [parseLine]. rewrite Hch.
    rewrite (IH Hf). by rewrite append_assoc_str.
Qed.

(** X14: a field in double quotes is read verbatim, commas included, as
    long as it contains no double quote itself: at the end of the line it
    closes the last cell; followed by a comma it closes the cell and the
    rest of the line is read as further cells; and a doubled double quote
    after it puts one double quote into the cell and stays in the quoted
    field. *)
Theorem parseLine_quoted_field_keeps_commas f :
  Forall (fun c => c ≠ DQ) (list_ascii_of_string f) →
  (∀ cells,
     parseLine (String DQ (f +:+ String DQ EmptyString)) false EmptyString cells
     = cells ++ [f])
  ∧ (∀ rest cells,
       parseLine (String DQ (f +:+ String DQ (String "," rest))) false EmptyString cells
       = parseLine rest false EmptyString (cells ++ [f]))
  ∧ (∀ rest cells,
       parseLine (String DQ (f +:+ String DQ (String DQ rest))) false EmptyString cells
       = parseLine rest true (f +:+ String DQ EmptyString) cells).
Proof.
  intros Hq.
  assert (Ascii.eqb DQ DQ = true) as Hdq by apply Ascii.eqb_refl.
  split; [|split]; intros; cbn [parseLine]; rewrite Hdq;
    rewrite (parseLine_quoted_run f Hq); cbn [parseLine]; rewrite Hdq; simpl;
    by rewrite append_nil_l_str.
Qed.

Lemma parseLine_quoted_field_keeps_commas_witness :
  parseLine (String DQ ("x,y" +:+ String DQ (String "," "z"))) false EmptyString []
  = ["x,y"; "z"].
Proof.
  refine (eq_trans
            (proj1 (proj2 (parseLine_quoted_field_keeps_commas "x,y" _)) "z" [])
            eq_refl).
  repeat constructor; vm_compute; discriminate.
Defined.

End ViewerExtras.

(** * Further properties of the conversation controller *)

Section ChatExtras.
Import ChatPage Controller.

Ltac chat_unfold :=
  unfold Eff.run, mbind, mret, eff_bind, eff_ret, Eff.bind, Eff.ret,
    Eff.try_catch, Eff.finally, Eff.modify, Eff.await, Eff.emit, Eff.throw;
  simpl.

(** "New chat" lands in Idle(global) with an empty transcript from
    any state, and pressing it again changes nothing more.  It leaves the
    conversation list, the input, the picker and the loading flag alone:
    a send that is still outstanding is not cancelled. *)
Lemma handleNewChat_resets_to_idle_global s :
  isIdleGlobal (handleNewChat s) = true
  ∧ messages (handleNewChat s) = []
  ∧ handleNewChat (handleNewChat s) = handleNewChat s
  ∧ conversations (handleNewChat s) = conversations s
  ∧ input (handleNewChat s) = input s
  ∧ loading (handleNewChat s) = loading s
  ∧ pickerOpen (handleNewChat s) = pickerOpen s
  ∧ (∀ sys, outstanding (step sys EvNewChat) = outstanding sys).
Proof. repeat split. Qed.

(** X15: deleting a conversation.  When the call is rejected nothing
    changes.  When it succeeds, no entry of the list has the deleted id
    and the other entries stay in order; if the deleted conversation was
    the active one the controller is reset as by "New chat", otherwise
    the controller's other fields are untouched. *)
Theorem handleDeleteConversation_removes_and_resets id reply s :
  (Eff.run (handleDeleteConversation id reply) s).2 = [deleteConversation id]
  ∧ (reply = None → (Eff.run (handleDeleteConversation id reply) s).1 = s)
  ∧ (reply = Some tt →
       conversations (Eff.run (handleDeleteConversation id reply) s).1
       = filter (fun c => ConversationItem.id c ≠ id) (conversations s)
       ∧ Forall (fun c => ConversationItem.id c ≠ id)
                (conversations (Eff.run (handleDeleteConversation id reply) s).1)
       ∧ (activeConversationId s = Some id →
            (Eff.run (handleDeleteConversation id reply) s).1
            = handleNewChat
                (setConversations
                   (filter (fun c => JsString.eqb (ConversationItem.id c) id = false)) s))
       ∧ (activeConversationId s ≠ Some id →
            (Eff.run (handleDeleteConversation id reply) s).1
            = setConversations
                (filter (fun c => JsString.eqb (ConversationItem.id c) id = false)) s)).
Proof.
  assert (∀ l : list ConversationItem.t,
            filter (fun c => JsString.eqb (ConversationItem.id c) id = false) l
            = filter (fun c => ConversationItem.id c ≠ id) l) as Hfilter.
  { intros l. apply list_filter_iff. intros c. unfold JsString.eqb.
    apply String.eqb_neq. }
  unfold handleDeleteConversation. chat_unfold.
  destruct reply as [[]|]; simpl; [|done].
  case_bool_decide as Hact; simpl; rewrite Hfilter;
    (split; [done|]); (split; [done|]); intros _;
    (split; [done|]); (split; [|done]);
    apply Forall_forall; intros c Hc%list_elem_of_filter; tauto.
Qed.

(** X16: opening a conversation binds its id at once.  If the fetch is
    rejected the id stays bound with an empty transcript while the mode,
    the context mode and the attached ids keep the values of the
    conversation shown before; if it succeeds they and the transcript are
    taken from the reply, a missing mode counting as global, a missing
    context mode as rag and missing ids as none. *)
Theorem handleSelectConversation_binds_before_loading id reply s :
  activeConversationId (Eff.run (handleSelectConversation id reply) s).1 = Some id
  ∧ (Eff.run (handleSelectConversation id reply) s).2 = [fetchConversation id]
  ∧ (reply = None →
       (Eff.run (handleSelectConversation id reply) s).1
       = setMessages (fun _ => []) (setActiveConversationId (Some id) s))
  ∧ (∀ data, reply = Some data →
       activeMode (Eff.run (handleSelectConversation id reply) s).1
       = default global (Conversation.mode data)
       ∧ contextMode (Eff.run (handleSelectConversation id reply) s).1
         = default rag (Conversation.context_mode data)
       ∧ activeDocumentIds (Eff.run (handleSelectConversation id reply) s).1
         = default [] (Conversation.document_ids data)
       ∧ messages (Eff.run (handleSelectConversation id reply) s).1
         = Conversation.messages data).
Proof.
  unfold handleSelectConversation. chat_unfold.
  destruct reply as [data|]; simpl; repeat split; try done;
    try (by simplify_eq).
  simplify_eq.
  induction (Conversation.messages data0) as [|m ms IH]; simpl; [done|].
  rewrite IH. by destruct m.
Qed.

(** X17: leaving documents mode always lands in Idle(global) with an
    empty transcript; entering it only opens the picker.  Entering from
    global mode and closing the picker with nothing attached gives back
    the state before, and closing the picker while ids are attached
    changes nothing but the picker. *)
Theorem mode_toggle_and_cancel s :
  (activeMode s = documents →
     isIdleGlobal (handleModeToggle s) = true
     ∧ messages (handleModeToggle s) = []
     ∧ pickerOpen (handleModeToggle s) = pickerOpen s)
  ∧ (activeMode s = global →
       handleModeToggle s = setPickerOpen true (setActiveMode documents s)
       ∧ (activeDocumentIds s = [] →
            pickerOnClose (handleModeToggle s) = setPickerOpen false s))
  ∧ (activeDocumentIds s ≠ [] →
       pickerOnClose (handleManageSources s) = setPickerOpen false s).
Proof.
  unfold handleModeToggle, pickerOnClose, handleManageSources.
  split; [|split].
  - intros ->. by simpl.
  - intros Hm. rewrite Hm. simpl. split; [done|]. intros ->. simpl.
    destruct s; simpl in *; by subst.
  - intros Hne. simpl. destruct (activeDocumentIds s) eqn:E; [done|]. simpl.
    by destruct s.
Qed.

(** *** Which inputs are sent *)







(** X19: the calls of a send that succeeds.  With no conversation bound,
    the conversation is created first, with the current mode and context
    mode; in documents mode with ids attached they are then attached to
    it; the message goes to the new conversation, which is bound, and the
    list is refreshed last.  With a conversation bound, the message goes
    to it and the list is refreshed; nothing is created or attached. *)
Theorem successful_send_creates_before_sending r s q :
  handleSend_accepts s = Some q →
  sendFails s q r = false →
  (JsString.truthy_opt (activeConversationId s) = false →
     ∃ conv, sendCreate r = Some conv
       ∧ (Eff.run (handleSend r) s).2
         = createConversation None (activeMode s) (contextMode s)
           :: (if Mode_eqb (activeMode s) documents
                  && (0 <? length (activeDocumentIds s))%nat
               then [setConversationDocuments (Conversation.id conv)
                                              (activeDocumentIds s)]
               else [])
           ++ [sendConversationMessage (Conversation.id conv) q; fetchConversations]
       ∧ activeConversationId (Eff.run (handleSend r) s).1
         = Some (Conversation.id conv))
  ∧ (JsString.truthy_opt (activeConversationId s) = true →
       ∃ cid, activeConversationId s = Some cid
         ∧ (Eff.run (handleSend r) s).2
           = [sendConversationMessage cid q; fetchConversations]
         ∧ activeConversationId (Eff.run (handleSend r) s).1 = Some cid).
Proof.
  intros Hacc Hok. rewrite (handleSend_accepted _ _ _ Hacc).
  revert Hok. rewrite sendFails_cases.
  unfold handleSend_async, handleSend_try, loadConversations. chat_unfold.
  destruct (activeConversationId s) as [cid|] eqn:Hcid; simpl.
  - destruct (JsString.truthy cid) eqn:Ht; simpl.
    + destruct (sendMessage r); simpl; [|done]. intros _.
      split; [done|]. intros _. exists cid.
      by destruct (sendList r).
    + destruct (sendCreate r) as [conv|]; simpl; [|done].
      destruct (Mode_eqb _ _ && _); simpl.
      * destruct (sendAttach r); simpl; [|done].
        destruct (sendMessage r); simpl; [|done]. intros _.
        split; [|done]. intros _. exists conv. by destruct (sendList r).
      * destruct (sendMessage r); simpl; [|done]. intros _.
        split; [|done]. intros _. exists conv. by destruct (sendList r).
  - destruct (sendCreate r) as [conv|]; simpl; [|done].
    destruct (Mode_eqb _ _ && _); simpl.
    + destruct (sendAttach r); simpl; [|done].
      destruct (sendMessage r); simpl; [|done]. intros _.
      split; [|done]. intros _. exists conv. by destruct (sendList r).
    + destruct (sendMessage r); simpl; [|done]. intros _.
      split; [|done]. intros _. exists conv. by destruct (sendList r).
Qed.

Lemma successful_send_creates_before_sending_witness :
  (Eff.run (handleSend
              (mkSendReplies (Some (Sample.conversation "c9")) (Some tt)
                             (Some []) (Some [])))
           Sample.typed).2
  = [createConversation None global rag;
     sendConversationMessage "c9" "What are the latest trends in LLMs?";
     fetchConversations].
Proof.
  destruct (successful_send_creates_before_sending
              (mkSendReplies (Some (Sample.conversation "c9")) (Some tt)
                             (Some []) (Some []))
              Sample.typed "What are the latest trends in LLMs?"
              eq_refl eq_refl) as [H _].
  destruct (H eq_refl) as (conv & Hconv & Hcalls & _).
  injection Hconv as <-. exact Hcalls.
Defined.

(** With a conversation bound, a send only talks to that conversation. *)
Lemma bound_send_calls r s cid :
  activeConversationId s = Some cid →
  JsString.truthy cid = true →
  ∀ c, c ∈ (Eff.run (handleSend r) s).2 →
       (∃ q, c = sendConversationMessage cid q) ∨ c = fetchConversations.
Proof.
  intros Hcid Ht c.
  destruct (handleSend_accepts s) as [q|] eqn:Hacc.
  - rewrite (handleSend_accepted _ _ _ Hacc).
    unfold handleSend_async, handleSend_try, loadConversations. chat_unfold.
    rewrite Hcid. simpl. rewrite Ht. simpl.
    destruct (sendMessage r); simpl; [destruct (sendList r); simpl|];
      rewrite ?elem_of_cons; intros H; destruct_or?; subst; eauto;
      by apply elem_of_nil in H.
  - rewrite (handleSend_refused _ _ Hacc). simpl. by intros ?%elem_of_nil.
Qed.

(** X20: in documents mode with ids attached and no conversation bound,
    when the conversation is created but attaching the ids is rejected,
    the send fails before the message is sent, yet the new conversation
    stays bound and the ids still show as attached.  Every later send on
    that conversation, whatever is typed, only sends the message and
    refreshes the list: the ids are not attached again. *)
Theorem failed_attach_is_not_retried r s q conv :
  handleSend_accepts s = Some q →
  JsString.truthy_opt (activeConversationId s) = false →
  activeMode s = documents →
  activeDocumentIds s ≠ [] →
  sendCreate r = Some conv →
  sendAttach r = None →
  (Eff.run (handleSend r) s).2
  = [createConversation None documents (contextMode s);
     setConversationDocuments (Conversation.id conv) (activeDocumentIds s)]
  ∧ activeConversationId (Eff.run (handleSend r) s).1 = Some (Conversation.id conv)
  ∧ activeDocumentIds (Eff.run (handleSend r) s).1 = activeDocumentIds s
  ∧ messages (Eff.run (handleSend r) s).1
    = messages s ++ [optimisticMessage q; failureNotice]
  ∧ (JsString.truthy (Conversation.id conv) = true →
     ∀ r2 text c,
       c ∈ (Eff.run (handleSend r2)
                    (setInput text (Eff.run (handleSend r) s).1)).2 →
       (∃ q2, c = sendConversationMessage (Conversation.id conv) q2)
       ∨ c = fetchConversations).
Proof.
  intros Hacc Hconv Hmode Hdocs Hcreate Hattach.
  assert (Eff.run (handleSend r) s
          = (setLoading false
               (setMessages (fun prev => prev ++ [failureNotice])
                  (setActiveConversationId (Some (Conversation.id conv))
                     (handleSend_sync q s))),
             [createConversation None documents (contextMode s);
              setConversationDocuments (Conversation.id conv) (activeDocumentIds s)]))
    as Hrun.
  { rewrite (handleSend_accepted _ _ _ Hacc).
    unfold handleSend_async, handleSend_try. chat_unfold.
    rewrite Hconv, Hcreate, Hmode, Hattach. simpl.
    destruct (activeDocumentIds s); [done|]. by simpl. }
  rewrite Hrun. cbn [fst snd].
  split; [done|]. split; [done|]. split; [done|].
  split; [simpl; by rewrite <- app_assoc|].
  intros Ht r2 text c. by apply bound_send_calls.
Qed.

Lemma failed_attach_is_not_retried_witness :
  (Eff.run (handleSend (mkSendReplies (Some (Sample.conversation "c9")) None
                                      (Some []) (Some [])))
           (setInput "hi" (setActiveConversationId None Sample.activeDocuments))).2
  = [createConversation None documents rag;
     setConversationDocuments "c9" ["d1"]]
  ∧ activeConversationId
      (Eff.run (handleSend (mkSendReplies (Some (Sample.conversation "c9")) None
                                          (Some []) (Some [])))
               (setInput "hi" (setActiveConversationId None Sample.activeDocuments))).1
    = Some "c9".
Proof.
  pose proof (failed_attach_is_not_retried
                (mkSendReplies (Some (Sample.conversation "c9")) None
                               (Some []) (Some []))
                (setInput "hi" (setActiveConversationId None Sample.activeDocuments))
                "hi" (Sample.conversation "c9")
                eq_refl eq_refl eq_refl) as H.
  destruct H as (Hcalls & Hid & _); [discriminate|reflexivity|reflexivity|].
  split; [exact Hcalls|exact Hid].
Defined.



(** X22: the reply of the association call has no effect: whether
    [setConversationDocuments] succeeds or is rejected, a confirmation
    ends in the same state after the same calls, with the ready ids shown
    as attached. *)
Theorem association_failure_is_silent docIds r r' s :
  confirmCreate r = confirmCreate r' →
  confirmList r = confirmList r' →
  Eff.run (handleDocumentsConfirmed docIds r) s
  = Eff.run (handleDocumentsConfirmed docIds r') s
  ∧ activeDocumentIds (Eff.run (handleDocumentsConfirmed docIds r) s).1 = docIds.
Proof.
  intros Hc Hl. unfold handleDocumentsConfirmed, loadConversations. chat_unfold.
  rewrite <- Hc, <- Hl.
  destruct docIds as [|d ds]; simpl; [done|].
  destruct (needsConversation s); simpl.
  - destruct (confirmCreate r); simpl; [|done].
    by destruct (confirmList r), (confirmAttach r), (confirmAttach r').
  - by destruct (confirmAttach r), (confirmAttach r').
Qed.

Lemma association_failure_is_silent_witness :
  Eff.run (handleDocumentsConfirmed ["d2"]
             (mkConfirmReplies None None (Some tt))) Sample.activeDocuments
  = Eff.run (handleDocumentsConfirmed ["d2"]
               (mkConfirmReplies None None None)) Sample.activeDocuments.
Proof.
  exact (proj1 (association_failure_is_silent ["d2"]
                  (mkConfirmReplies None None (Some tt))
                  (mkConfirmReplies None None None)
                  Sample.activeDocuments eq_refl eq_refl)).
Defined.

(** X23: a submission with at least one completed outcome, followed by the
    controller's reaction: the controller runs its confirmation once, on
    exactly the completed ids; they become the attached ids, the picker
    closes, and every association call it issues carries exactly them. *)
Theorem submit_then_confirm_attaches_completed_ids d r cr p c all :
  DocumentPickerModal.mergedOutcomes p d r = Some all →
  (∃ o, o ∈ all ∧ EmbedStatusItem.status o = "completed") →
  submitAndConfirm d r cr p c
  = ((Eff.run (DocumentPickerModal.handleConfirm d r) p).1,
     (Eff.run (handleDocumentsConfirmed (DocumentPickerModal.successIdsOf all) cr) c).1,
     (Eff.run (handleDocumentsConfirmed (DocumentPickerModal.successIdsOf all) cr) c).2)
  ∧ activeDocumentIds (submitAndConfirm d r cr p c).1.2
    = DocumentPickerModal.successIdsOf all
  ∧ pickerOpen (submitAndConfirm d r cr p c).1.2 = false
  ∧ activeMode (submitAndConfirm d r cr p c).1.2 = activeMode c
  ∧ (∀ cid ids,
       setConversationDocuments cid ids ∈ (submitAndConfirm d r cr p c).2 →
       ids = DocumentPickerModal.successIdsOf all).
Proof.
  intros Hm Hex.
  assert (DocumentPickerModal.successIdsOf all ≠ []) as Hne.
  { destruct Hex as (o & Hin & Hst). intros Hnil.
    assert (EmbedStatusItem.document_id o ∈ DocumentPickerModal.successIdsOf all) as H.
    { unfold DocumentPickerModal.successIdsOf. apply list_elem_of_fmap.
      exists o. split; [done|]. apply list_elem_of_filter.
      by rewrite hasStatus_true. }
    rewrite Hnil in H. by apply elem_of_nil in H. }
  assert (submitAndConfirm d r cr p c
          = ((Eff.run (DocumentPickerModal.handleConfirm d r) p).1,
             (Eff.run (handleDocumentsConfirmed
                         (DocumentPickerModal.successIdsOf all) cr) c).1,
             (Eff.run (handleDocumentsConfirmed
                         (DocumentPickerModal.successIdsOf all) cr) c).2)) as ->.
  { unfold submitAndConfirm.
    rewrite (handleConfirm_run _ _ _ _ Hm). cbv zeta.
    rewrite (completed_not_total_failure _ Hex). cbv iota.
    rewrite confirmed_app, confirmed_requests. simpl.
    by destruct (Eff.run _ c). }
  split; [done|]. cbn [fst snd].
  destruct (DocumentPickerModal.successIdsOf all) as [|i ids0] eqn:Hids; [done|].
  unfold handleDocumentsConfirmed, loadConversations. chat_unfold.
  destruct (needsConversation c); simpl.
  - destruct (confirmCreate cr); simpl.
    + destruct (confirmList cr), (confirmAttach cr); simpl; repeat split; try done;
        intros cid ids; rewrite !elem_of_cons; intros H; destruct_or?;
        simplify_eq; try done; by apply elem_of_nil in H.
    + repeat split; try done.
      intros cid ids; rewrite !elem_of_cons; intros H; destruct_or?;
        simplify_eq; try done; by apply elem_of_nil in H.
  - destruct (confirmAttach cr); simpl; repeat split; try done;
      intros cid ids; rewrite !elem_of_cons; intros H; destruct_or?;
      simplify_eq; try done; by apply elem_of_nil in H.
Qed.

Lemma submit_then_confirm_attaches_completed_ids_witness :
  activeDocumentIds
    (submitAndConfirm
       (Sample.reply [Sample.outcome "d1" "completed";
                      Sample.outcome "d2" "processing"]) None
       Sample.confirmReplies Sample.picker
       (handleModeToggle initialState)).1.2 = ["d1"].
Proof.
  pose proof (submit_then_confirm_attaches_completed_ids
                (Sample.reply [Sample.outcome "d1" "completed";
                               Sample.outcome "d2" "processing"]) None
                Sample.confirmReplies Sample.picker
                (handleModeToggle initialState)
                [Sample.outcome "d1" "completed"; Sample.outcome "d2" "processing"]
                eq_refl
                (ex_intro _ (Sample.outcome "d1" "completed")
                   (conj (list_elem_of_here _ _) eq_refl))) as (_ & Hids & _).
  exact Hids.
Defined.

End ChatExtras.

(** * The status badges after a submission *)

Section BadgeExtras.
Import DocumentPickerModal SelectedPanel.

(** X24: the badge of a paper or repository entry does not depend on the
    status map: it only tells whether the catalog record is stored
    locally, so an indexing outcome of such an entry is never shown.  The
    badge of a document entry after a submission follows the last outcome
    that carries its id: Cached, Embedding or Failed (with the error
    message as tooltip) for completed, processing or failed, and Pending
    for any other status or when no outcome carries the id. *)
Theorem statusBadge_follows_last_outcome rs item :
  (SelectedItem.type item ≠ type_document →
     ∀ st st' : gmap string EmbedStatusItem.t,
       statusBadge st item = statusBadge st' item)
  ∧ (SelectedItem.type item = type_document →
       statusBadge (statusMap rs) item
       = match last (filter (fun o => EmbedStatusItem.document_id o
                                      = SelectedItem.id item) rs) with
         | Some o =>
             if decide (EmbedStatusItem.status o = "completed") then Cached
             else if decide (EmbedStatusItem.status o = "processing") then Embedding
             else if decide (EmbedStatusItem.status o = "failed")
             then Failed (JsString.or_else (EmbedStatusItem.error_message o) "")
             else Pending
         | None => Pending
         end).
Proof.
  unfold statusBadge. split.
  - intros Hty st st'. by destruct (SelectedItem.type item).
  - intros ->. simpl. rewrite statusMap_last.
    destruct (last _) as [o|]; [|done].
    unfold JsString.eqb.
    repeat (case_decide as Hd;
            [apply String.eqb_eq in Hd as ->|apply String.eqb_neq in Hd as ->];
            try done).
Qed.

End BadgeExtras.
